(** * Prayer-time extraction: a shallow embedding of [src/extractor/pdf_parser.py]

    The development follows the Python module:
    - [Py]: the fragment of Python's [str], [int], truthiness and exceptions
      that the parser relies on;
    - [Re]: a backtracking matcher for the fragment of [re] used by the
      fallback pattern (character classes, greedy repetition, alternation,
      optional groups, capture groups, [findall]);
    - [PDFParser]: [parse_table_rows], [_find_header_row],
      [_parse_single_row] and [extract_from_text_pattern];
    - [Spec]: the vocabulary of the properties (what a regular expression
      denotes, the shape of tokens and groups, header rows, stand-ins for
      the collaborators of [src.utils] and concrete inputs);
    - the properties of the extraction pipeline.

    Strings are lists of 8-bit code points (the Latin-1 range of Python's
    [str]); the character classes below are those of Python's Unicode
    database restricted to that range. *)

From Stdlib Require Import Ascii String ZArith Lia.
From stdpp Require Import base tactics option list sorting pretty.

Module Py.

(** ** Strings *)

Abbreviation str := (list ascii).

(** A Python string literal. *)
Definition lit (s : string) : str := list_ascii_of_string s.

Definition code (a : ascii) : nat := nat_of_ascii a.

(** [str.isspace] on one character, also the class [\s] of [re]:
    TAB..CR, FS..US, SPACE, NEL and NBSP. *)
Definition isspace (a : ascii) : bool :=
  let n := code a in
  ((9 <=? n) && (n <=? 13)) || ((28 <=? n) && (n <=? 32))
  || (n =? 133) || (n =? 160).

(** Decimal digits, the class [\d] of [re]: only 0..9 below 256. *)
Definition isdigit (a : ascii) : bool :=
  let n := code a in (48 <=? n) && (n <=? 57).

(** [str.lower] on one character: A..Z and the Latin-1 capitals
    (192..222 without the multiplication sign 215). *)
Definition lower_char (a : ascii) : ascii :=
  let n := code a in
  if ((65 <=? n) && (n <=? 90))
     || ((192 <=? n) && (n <=? 222) && negb (n =? 215))
  then ascii_of_nat (n + 32) else a.

(** [str.upper] on one character: a..z and the Latin-1 small letters
    (224..254 without the division sign 247).  Python sends the three
    remaining cased characters out of the 8-bit range (181 to U+039C, 255 to
    U+0178) or to two letters (223 to SS); they are left in place here.
    None of the images is a letter of the header keywords, so substring tests
    against DATE, FAJR and MAGHRIB are unaffected. *)
Definition upper_char (a : ascii) : ascii :=
  let n := code a in
  if ((97 <=? n) && (n <=? 122))
     || ((224 <=? n) && (n <=? 254) && negb (n =? 247))
  then ascii_of_nat (n - 32) else a.

Definition lower (s : str) : str := map lower_char s.
Definition upper (s : str) : str := map upper_char s.

Fixpoint lstrip (s : str) : str :=
  match s with
  | a :: s' => if isspace a then lstrip s' else s
  | [] => []
  end.

Definition rstrip (s : str) : str := reverse (lstrip (reverse s)).

(** [s.strip()] *)
Definition strip (s : str) : str := rstrip (lstrip s).

Fixpoint startswith (p s : str) : bool :=
  match p, s with
  | [], _ => true
  | a :: p', b :: s' => if decide (a = b) then startswith p' s' else false
  | _ :: _, [] => false
  end.

(** [needle in hay] for strings. *)
Fixpoint contains (needle hay : str) : bool :=
  startswith needle hay
  || match hay with
     | [] => false
     | _ :: hay' => contains needle hay'
     end.

(** [sep.join(parts)] *)
Fixpoint join (sep : str) (parts : list str) : str :=
  match parts with
  | [] => []
  | [p] => p
  | p :: ps => p ++ sep ++ join sep ps
  end.

(** [x in xs] for a list of strings. *)
Definition in_list (x : str) (xs : list str) : bool :=
  existsb (fun y => bool_decide (x = y)) xs.

(** Truthiness of a string: non-empty. *)
Definition truthy (s : str) : bool :=
  match s with [] => false | _ :: _ => true end.

(** ** Exceptions

    Every value of [Exception] is an instance of Python's [Exception] class,
    the class named by the handler of [_parse_single_row]. *)

Inductive Exception : Type :=
  | IndexError
  | ValueError
  | OtherError (name : string).

Inductive Res (A : Type) : Type :=
  | Return (a : A)
  | Raise (e : Exception).
Arguments Return {A} a.
Arguments Raise {A} e.

#[export] Instance Res_ret : MRet Res := fun A a => Return a.
#[export] Instance Res_bind : MBind Res := fun A B f m =>
  match m with
  | Return a => f a
  | Raise e => Raise e
  end.

(** [try: body except Exception: handler] *)
Definition try_except {A} (body : Res A) (handler : Exception -> Res A) : Res A :=
  match body with
  | Return a => Return a
  | Raise e => handler e
  end.

(** [xs[i]] for a list: out of range raises [IndexError]. *)
Definition getitem {A} (xs : list A) (i : nat) : Res A :=
  match xs !! i with
  | Some x => Return x
  | None => Raise IndexError
  end.

(** ** Integers *)

Definition digit_value (a : ascii) : Z := Z.of_nat (code a - 48).

(** [int(s)] on a string of decimal digits; the empty string and any other
    character raise [ValueError].  (Python also accepts a sign, surrounding
    white space and underscores; the parser only ever passes digits.) *)
Definition int (s : str) : Res Z :=
  if truthy s && forallb isdigit s
  then Return (fold_left (fun acc a => 10 * acc + digit_value a)%Z s 0%Z)
  else Raise ValueError.

(** [f"{n:02d}"]: decimal, sign first, zero-padded to width two. *)
Definition format_02d (n : Z) : str :=
  let digits := lit (pretty (Z.abs_N n)) in
  if (n <? 0)%Z then
    lit "-" ++ digits
  else
    replicate (2 - length digits) "0"%char ++ digits.

End Py.

(** * The fragment of [re] used by the parser *)

Module Re.
Import Py.

(** Character classes.  Under [re.IGNORECASE] a literal and a set compare
    lower-cased characters; [\d] and [\s] are case-blind anyway. *)
Inductive cclass : Type :=
  | CDigit                      (* \d *)
  | CSpace                      (* \s *)
  | CLit (c : ascii)            (* one literal character *)
  | CSet (cs : list ascii).     (* [...] *)

Definition cmatch (icase : bool) (cl : cclass) (a : ascii) : bool :=
  let fold c := if icase then lower_char c else c in
  match cl with
  | CDigit => isdigit a
  | CSpace => isspace a
  | CLit c => bool_decide (fold a = fold c)
  | CSet cs => existsb (fun c => bool_decide (fold a = fold c)) cs
  end.

Inductive regex : Type :=
  | Cls (cl : cclass)                           (* one character *)
  | Rep (lo : nat) (hi : option nat) (cl : cclass)
      (* greedy cl{lo,hi}; [hi = None] is unbounded *)
  | Seq (r1 r2 : regex)
  | Alt (r1 r2 : regex)                         (* r1|r2, r1 first *)
  | Opt (r : regex)                             (* greedy (?:r)? *)
  | Grp (n : nat) (r : regex).                  (* capture group n *)

(** Capture groups: slot [n] holds the text of group [n], [None] while the
    group has not taken part in the match. *)
Abbreviation caps := (list (option str)).

Section Matcher.
Context {A : Type}.
Variable icase : bool.

(** Greedy repetition: take one more character while allowed, and fall
    back to stopping here once the minimum is reached. *)
Fixpoint rep (cl : cclass) (lo : nat) (hi : option nat) (s : str)
    (k : str -> option A) {struct s} : option A :=
  let stop := if lo =? 0 then k s else None in
  let more := match hi with Some 0 => false | _ => true end in
  match s with
  | a :: s' =>
      if more && cmatch icase cl a then
        match rep cl (pred lo) (pred <$> hi) s' k with
        | Some x => Some x
        | None => stop
        end
      else stop
  | [] => stop
  end.

(** Backtracking matcher in continuation-passing style: [k] receives the
    rest of the subject and the groups; [None] makes the matcher try its
    next choice. *)
Fixpoint rmatch (r : regex) (s : str) (c : caps)
    (k : str -> caps -> option A) {struct r} : option A :=
  match r with
  | Cls cl =>
      match s with
      | a :: s' => if cmatch icase cl a then k s' c else None
      | [] => None
      end
  | Rep lo hi cl => rep cl lo hi s (fun s' => k s' c)
  | Seq r1 r2 => rmatch r1 s c (fun s1 c1 => rmatch r2 s1 c1 k)
  | Alt r1 r2 =>
      match rmatch r1 s c k with
      | Some x => Some x
      | None => rmatch r2 s c k
      end
  | Opt r1 =>
      match rmatch r1 s c k with
      | Some x => Some x
      | None => k s c
      end
  | Grp n r1 =>
      rmatch r1 s c
        (fun s' c' => k s' (<[n := Some (take (length s - length s') s)]> c'))
  end.
End Matcher.

(** A match object: its span in the subject and its groups. *)
Record rematch : Type := MkMatch {
  m_start : nat;
  m_end : nat;
  m_groups : caps
}.

Section Search.
Variable icase : bool.
Variable r : regex.
Variable ngroups : nat.

(** Match anchored at the head of [s]: the rest of the subject and the
    groups.  The groups start unset at every attempt. *)
Definition match_here (s : str) : option (str * caps) :=
  rmatch icase r s (replicate (S ngroups) None) (fun s' c => Some (s', c)).

(** All non-overlapping matches, left to right.  [pos] is the offset of
    [s] in the subject; [skip] counts the characters still covered by the
    previous match.  After a match the scan resumes at its end (one
    character further for an empty match). *)
Fixpoint scan (pos skip : nat) (s : str) {struct s} : list rematch :=
  match skip with
  | S n =>
      match s with
      | [] => []
      | _ :: s1 => scan (S pos) n s1
      end
  | O =>
      match match_here s with
      | Some (s', c) =>
          let len := length s - length s' in
          MkMatch pos (pos + len) c ::
          match s with
          | [] => []
          | _ :: s1 => scan (S pos) (pred len) s1
          end
      | None =>
          match s with
          | [] => []
          | _ :: s1 => scan (S pos) 0 s1
          end
      end
  end.

(** [re.finditer] *)
Definition finditer (s : str) : list rematch := scan 0 0 s.

(** [m.group(n)] seen through [findall]: an unset group reads as the
    empty string. *)
Definition group (m : rematch) (n : nat) : str :=
  default [] (mjoin (m_groups m !! n)).

(** [re.findall] for a pattern with several groups: per match the list of
    groups 1..ngroups. *)
Definition findall (s : str) : list (list str) :=
  map (fun m => map (group m) (seq 1 ngroups)) (finditer s).

(** [re.search]: the leftmost match. *)
Definition search (s : str) : option rematch := head (finditer s).
End Search.

End Re.

(** * The parser *)

Module PDFParser.
Import Py Re.

(** A table cell as the table reader delivers it: [None] or a string. *)
Definition cell := option str.
Definition row := list cell.
Definition table := list row.

(** Truthiness of a cell: neither [None] nor the empty string. *)
Definition cell_truthy (c : cell) : bool :=
  match c with
  | Some s => truthy s
  | None => false
  end.

(** [str(cell)] *)
Definition str_of (c : cell) : str :=
  match c with
  | Some s => s
  | None => lit "None"
  end.

(** [str(cell or "")] *)
Definition str_or_empty (c : cell) : str :=
  str_of (if cell_truthy c then c else Some []).

(** The dictionary built for one day; its seven keys are fixed. *)
Record PrayerRecord : Type := MkRecord {
  date : str;
  fajr : str;
  sunrise : str;
  dhuhr : str;
  asr : str;
  maghrib : str;
  isha : str
}.

(** ** [_find_header_row] *)

Definition row_text (r : row) : str :=
  join (lit " ") (map (fun c => if cell_truthy c then upper (str_of c) else []) r).

Definition is_header (r : row) : bool :=
  (negb (bool_decide (r = [])) && (6 <=? length r))
  && ((contains (lit "FAJR") (row_text r) || contains (lit "DATE") (row_text r))
      && contains (lit "MAGHRIB") (row_text r)).

(** The loop over [enumerate(table)], [i] being the index of the head. *)
Fixpoint _find_header_row_from (i : nat) (t : table) : option nat :=
  match t with
  | [] => None
  | r :: t' => if is_header r then Some i else _find_header_row_from (S i) t'
  end.

Definition _find_header_row (t : table) : option nat := _find_header_row_from 0 t.

Section TablePath.
(** The collaborators of [src.utils]: the date resolver returns a string
    or [None], the time cleaner a string; either may raise. *)
Variable parse_date : str -> str -> Res (option str).
Variable clean_time : str -> Res str.

(** The body of the [try] block; [Return None] stands for the early
    [return None]s and for falling through to the final one. *)
Definition _parse_single_row_try (r : row) (month : str) : Res (option PrayerRecord) :=
  c0 ← getitem r 0;
  let date_str := if cell_truthy c0 then strip (str_of c0) else [] in
  if negb (truthy date_str)
     || in_list (lower date_str) [lit "none"; lit "null"; lit ""] then Return None
  else if negb (bool_decide (is_Some (search false (Cls CDigit) 0 date_str))) then Return None
  else
    parsed ← parse_date date_str month;
    match parsed with
    | None | Some [] => Return None
    | Some parsed_date =>
        c1 ← getitem r 1; v_fajr ← clean_time (str_or_empty c1);
        c2 ← getitem r 2; v_sunrise ← clean_time (str_or_empty c2);
        c3 ← getitem r 3; v_dhuhr ← clean_time (str_or_empty c3);
        c4 ← getitem r 4; v_asr ← clean_time (str_or_empty c4);
        c5 ← getitem r 5; v_maghrib ← clean_time (str_or_empty c5);
        v_isha ← (if 6 <? length r
                  then (c6 ← getitem r 6; clean_time (str_or_empty c6))
                  else Return []);
        let prayer_data :=
          MkRecord parsed_date v_fajr v_sunrise v_dhuhr v_asr v_maghrib v_isha in
        if forallb truthy [fajr prayer_data; maghrib prayer_data; isha prayer_data]
        then Return (Some prayer_data)
        else Return None
    end.

Definition _parse_single_row (r : row) (month : str) : Res (option PrayerRecord) :=
  if bool_decide (r = []) || (length r <? 6) then Return None
  else try_except (_parse_single_row_try r month) (fun _ => Return None).

(** The [for row in data_rows] loop, [prayer_times] being the list built
    so far. *)
Fixpoint parse_rows_loop (data_rows : list row) (month : str)
    (prayer_times : list PrayerRecord) : Res (list PrayerRecord) :=
  match data_rows with
  | [] => Return prayer_times
  | r :: rest =>
      prayer_data ← _parse_single_row r month;
      match prayer_data with
      | Some d => parse_rows_loop rest month (prayer_times ++ [d])
      | None => parse_rows_loop rest month prayer_times
      end
  end.

Definition parse_table_rows (t : table) (month : str) : Res (list PrayerRecord) :=
  if bool_decide (t = []) || (length t <? 2) then Return []
  else
    match _find_header_row t with
    | None => Return []
    | Some header_row_idx =>
        parse_rows_loop (drop (header_row_idx + 1) t) month []
    end.
End TablePath.

(** ** [extract_from_text_pattern] *)

Definition lit_re (s : string) : regex :=
  match lit s with
  | [] => Rep 0 (Some 0) CSpace
  | a :: s' => fold_left (fun r c => Seq r (Cls (CLit c))) s' (Cls (CLit a))
  end.

(** [Jan|Feb|Mar|Apr|May|Jun|Jul|Aug|Sep|Oct|Nov|Dec] *)
Definition month_abbrev : regex :=
  Alt (lit_re "Jan") (Alt (lit_re "Feb") (Alt (lit_re "Mar") (Alt (lit_re "Apr")
  (Alt (lit_re "May") (Alt (lit_re "Jun") (Alt (lit_re "Jul") (Alt (lit_re "Aug")
  (Alt (lit_re "Sep") (Alt (lit_re "Oct") (Alt (lit_re "Nov") (lit_re "Dec"))))))))))).

(** [\d{1,2}] *)
Definition day_digits : regex := Rep 1 (Some 2) CDigit.

(** [\d{1,2}:\d{2}\s*[APap][Mm]?] *)
Definition time_token : regex :=
  Seq (Rep 1 (Some 2) CDigit)
  (Seq (Cls (CLit ":"))
  (Seq (Rep 2 (Some 2) CDigit)
  (Seq (Rep 0 None CSpace)
  (Seq (Cls (CSet (lit "APap")))
       (Opt (Cls (CSet (lit "Mm")))))))).

(** [\s+] *)
Definition spaces1 : regex := Rep 1 None CSpace.

(** [(?:\s+(token))?] with the token in group [n] *)
Definition opt_token (n : nat) : regex := Opt (Seq spaces1 (Grp n time_token)).

(** [(\d{1,2})-(Jan|...)|(Jan|...)-(\d{1,2})] *)
Definition day_marker : regex :=
  Alt (Seq (Grp 1 day_digits) (Seq (Cls (CLit "-")) (Grp 2 month_abbrev)))
      (Seq (Grp 3 month_abbrev) (Seq (Cls (CLit "-")) (Grp 4 day_digits))).

Definition pattern : regex :=
  Seq day_marker
  (Seq spaces1
  (Seq (Grp 5 time_token) (Seq spaces1      (* Fajr *)
  (Seq (Grp 6 time_token) (Seq spaces1      (* Sunrise *)
  (Seq (Grp 7 time_token) (Seq spaces1      (* Luhr *)
  (Seq (Grp 8 time_token)                   (* Asr *)
  (Seq (opt_token 9)                        (* Maghrib *)
       (opt_token 10)))))))))).             (* Isha *)

(** [x or y] on strings *)
Definition str_or (x y : str) : str := if truthy x then x else y.

(** The body of the loop for one match: the tuple is unpacked into its ten
    groups (any other length cannot be unpacked). *)
Definition record_of_match (month : str) (m : list str) : Res PrayerRecord :=
  match m with
  | [day1; _; _; day2; g_fajr; g_sunrise; g_dhuhr; g_asr; g_maghrib; g_isha] =>
      let day := str_or day1 day2 in
      n ← int day;
      let parsed_date := month ++ lit "-" ++ format_02d n in
      Return (MkRecord parsed_date
                (strip g_fajr)
                (strip g_sunrise)
                (strip g_dhuhr)
                (strip g_asr)
                (if truthy g_maghrib then strip g_maghrib else [])
                (if truthy g_isha then strip g_isha else []))
  | _ => Raise ValueError
  end.

Fixpoint extract_loop (month : str) (matches : list (list str))
    (prayer_times : list PrayerRecord) : Res (list PrayerRecord) :=
  match matches with
  | [] => Return prayer_times
  | m :: rest =>
      prayer_data ← record_of_match month m;
      extract_loop month rest (prayer_times ++ [prayer_data])
  end.

Definition extract_from_text_pattern (text : str) (month : str) : Res (list PrayerRecord) :=
  extract_loop month (findall true pattern 10 text) [].

(** ** [extract_text_and_metadata] and [extract_tables] *)

(** A page of an opened document, as far as the parser looks at it: what
    [page.extract_text()] answers (a string or [None]) and what
    [page.extract_tables()] answers (a list of tables, or [None]). *)
Record Page : Type := MkPage {
  page_text : option str;
  page_tables : option (list table)
}.

(** [page.extract_text() or ""] *)
Definition text_or_empty (page : Page) : str :=
  match page_text page with
  | Some s => if truthy s then s else []
  | None => []
  end.

(** The line feed. *)
Definition newline : ascii := "010"%char.

(** The loop over [pdf.pages] of [extract_text_and_metadata], [all_text]
    being the text gathered so far. *)
Fixpoint text_loop (pages : list Page) (all_text : str) : str :=
  match pages with
  | [] => all_text
  | page :: rest =>
      let page_text := text_or_empty page in
      text_loop rest (all_text ++ (page_text ++ [newline]))
  end.

(** The loop over [pdf.pages] of [extract_tables]: the tables of a page are
    appended when the answer is neither [None] nor empty. *)
Fixpoint tables_loop (pages : list Page) (all_tables : list table) : list table :=
  match pages with
  | [] => all_tables
  | page :: rest =>
      match page_tables page with
      | Some (tb :: tbs) => tables_loop rest (all_tables ++ tb :: tbs)
      | Some [] | None => tables_loop rest all_tables
      end
  end.

Section Reader.
Context {Zone Month : Type}.
(** [pdfplumber.open(pdf_path)]: the pages of the document, or an
    exception; leaving the [with] block lets an exception through. *)
Variable open_pdf : str -> Res (list Page).
(** The detectors of [src.utils.text_utils]. *)
Variable extract_zone_from_text : str -> Res Zone.
Variable extract_month_from_text : str -> Res Month.

Definition extract_text_and_metadata (pdf_path : str) : Res (str * Zone * Month) :=
  pages ← open_pdf pdf_path;
  let all_text := text_loop pages [] in
  zone ← extract_zone_from_text all_text;
  month ← extract_month_from_text all_text;
  Return (all_text, zone, month).

Definition extract_tables (pdf_path : str) : Res (list table) :=
  pages ← open_pdf pdf_path;
  Return (tables_loop pages []).
End Reader.

End PDFParser.

(** * Specification vocabulary *)

Module Spec.
Import Py Re PDFParser.

(** [needle] occurs in [hay] as a contiguous substring. *)
Definition substring (needle hay : str) : Prop :=
  ∃ u v, hay = u ++ needle ++ v.

(** What a regular expression matches, as a relation: [den r w c c'] holds
    when [r] can match exactly the word [w], turning the groups [c] into
    [c'].  The relation knows nothing of the order in which the matcher
    tries its choices. *)
Section Denotation.
Variable icase : bool.

Fixpoint den (r : regex) (w : str) (c c' : caps) : Prop :=
  match r with
  | Cls cl => ∃ a, w = [a] ∧ cmatch icase cl a = true ∧ c' = c
  | Rep lo hi cl =>
      Forall (λ a, cmatch icase cl a = true) w
      ∧ lo ≤ length w ∧ (∀ h, hi = Some h → length w ≤ h) ∧ c' = c
  | Seq r1 r2 => ∃ w1 w2 c1, w = w1 ++ w2 ∧ den r1 w1 c c1 ∧ den r2 w2 c1 c'
  | Alt r1 r2 => den r1 w c c' ∨ den r2 w c c'
  | Opt r1 => den r1 w c c' ∨ (w = [] ∧ c' = c)
  | Grp n r1 => ∃ c1, den r1 w c c1 ∧ c' = <[n := Some w]> c1
  end.
End Denotation.

(** The groups a regular expression can set. *)
Fixpoint groups_of (r : regex) : list nat :=
  match r with
  | Cls _ | Rep _ _ _ => []
  | Seq r1 r2 | Alt r1 r2 => groups_of r1 ++ groups_of r2
  | Opt r1 => groups_of r1
  | Grp n r1 => n :: groups_of r1
  end.

(** ** The shape of what the fallback pattern captures *)

(** One or two decimal digits. *)
Definition day_ok (d : str) : Prop :=
  Forall (λ a, isdigit a = true) d ∧ (length d = 1 ∨ length d = 2).

(** A time token as the pattern takes it: one or two digits, a colon, two
    digits, any white space, the letter A or P in either case, and possibly
    the letter M in either case. *)
Definition token_shape (t : str) : Prop :=
  ∃ h m sp a mm,
    t = h ++ ":"%char :: m ++ sp ++ a :: mm
    ∧ day_ok h
    ∧ Forall (λ a, isdigit a = true) m ∧ length m = 2
    ∧ Forall (λ a, isspace a = true) sp
    ∧ a ∈ lit "APap"
    ∧ (mm = [] ∨ ∃ b, mm = [b] ∧ b ∈ lit "Mm").

(** Exactly one of the two day groups (1 and 4) is set, to a day. *)
Definition day_groups (c : caps) : Prop :=
  ∃ d, day_ok d
    ∧ ((c !! 1 = Some (Some d) ∧ c !! 4 = Some None)
       ∨ (c !! 1 = Some None ∧ c !! 4 = Some (Some d))).

Definition token_group (c : caps) (n : nat) : Prop :=
  ∃ t, c !! n = Some (Some t) ∧ token_shape t.

(** Groups 9 and 10: none, only 9, or both. *)
Definition tail_groups (c : caps) : Prop :=
  (c !! 9 = Some None ∧ c !! 10 = Some None)
  ∨ (token_group c 9 ∧ (c !! 10 = Some None ∨ token_group c 10)).

Definition well_formed_groups (c : caps) : Prop :=
  day_groups c
  ∧ token_group c 5 ∧ token_group c 6 ∧ token_group c 7 ∧ token_group c 8
  ∧ tail_groups c.

(** The pattern up to and including the Asr token. *)
Definition pattern_head : regex :=
  Seq day_marker
  (Seq spaces1
  (Seq (Grp 5 time_token) (Seq spaces1
  (Seq (Grp 6 time_token) (Seq spaces1
  (Seq (Grp 7 time_token) (Seq spaces1
       (Grp 8 time_token)))))))).

(** The body of an optional trailing token, [\s+(token)], with group [n]. *)
Definition opt_body (n : nat) : regex := Seq spaces1 (Grp n time_token).

(** The final continuation of [match_here]. *)
Definition accept : str → caps → option (str * caps) := λ s c, Some (s, c).

(** [d.zfill(2)] *)
Definition zfill2 (d : str) : str := replicate (2 - length d) "0"%char ++ d.

(** What [extract_from_text_pattern] builds from one match, read off the
    groups; the day is padded as [zfill] does. *)
Definition record_of_groups (month : str) (m : rematch) : PrayerRecord :=
  MkRecord (month ++ lit "-" ++ zfill2 (str_or (group m 1) (group m 4)))
    (strip (group m 5)) (strip (group m 6)) (strip (group m 7)) (strip (group m 8))
    (if truthy (group m 9) then strip (group m 9) else [])
    (if truthy (group m 10) then strip (group m 10) else []).

(** ** Texts whose time tokens carry no AM/PM letter *)

(** A colon with the letter A or P somewhere after it. *)
Definition colon_then_ampm (s : str) : Prop :=
  ∃ u v a rest, s = u ++ ":"%char :: v ++ a :: rest ∧ a ∈ lit "APap".

(** The characters of a text of bare tokens after its day marker: white
    space, digits and the colon. *)
Definition plain_char (a : ascii) : bool :=
  isspace a || isdigit a || bool_decide (a = ":"%char).

(** One of the twelve month abbreviations, in any case. *)
Definition is_month_abbrev (ab : str) : Prop :=
  lower ab ∈ map lit ["jan"; "feb"; "mar"; "apr"; "may"; "jun";
                      "jul"; "aug"; "sep"; "oct"; "nov"; "dec"].

(** A day marker: day-MonthAbbrev or MonthAbbrev-day. *)
Definition day_marker_text (mk : str) : Prop :=
  ∃ d ab, day_ok d ∧ is_month_abbrev ab
    ∧ (mk = d ++ "-"%char :: ab ∨ mk = ab ++ "-"%char :: d).

(** H:MM or HH:MM and nothing more. *)
Definition bare_token (t : str) : Prop :=
  ∃ h m, t = h ++ ":"%char :: m ∧ day_ok h
    ∧ Forall (λ a, isdigit a = true) m ∧ length m = 2.

(** Non-empty white space. *)
Definition blank (w : str) : Prop :=
  w ≠ [] ∧ Forall (λ a, isspace a = true) w.

(** A day marker followed by four white-space-separated bare tokens. *)
Definition suffixless_text (text : str) : Prop :=
  ∃ mk w1 t1 w2 t2 w3 t3 w4 t4,
    text = mk ++ w1 ++ t1 ++ w2 ++ t2 ++ w3 ++ t3 ++ w4 ++ t4
    ∧ day_marker_text mk
    ∧ blank w1 ∧ bare_token t1 ∧ blank w2 ∧ bare_token t2
    ∧ blank w3 ∧ bare_token t3 ∧ blank w4 ∧ bare_token t4.

(** The time fields of a record are the groups 5 to 10 of a match with the
    surrounding white space stripped (an unset group reads as empty). *)
Definition raw_fields (m : rematch) (d : PrayerRecord) : Prop :=
  fajr d = strip (group m 5) ∧ sunrise d = strip (group m 6)
  ∧ dhuhr d = strip (group m 7) ∧ asr d = strip (group m 8)
  ∧ maghrib d = strip (group m 9) ∧ isha d = strip (group m 10).

(** A day marker with the day [day], followed by the four time tokens
    [t5] to [t8], white space before each of them and nothing after the
    last. *)
Definition lettered_text (text day t5 t6 t7 t8 : str) : Prop :=
  ∃ ab w1 w2 w3 w4,
    day_ok day ∧ is_month_abbrev ab
    ∧ (text = (day ++ "-"%char :: ab) ++ w1 ++ t5 ++ w2 ++ t6 ++ w3 ++ t7 ++ w4 ++ t8
       ∨ text = (ab ++ "-"%char :: day) ++ w1 ++ t5 ++ w2 ++ t6 ++ w3 ++ t7 ++ w4 ++ t8)
    ∧ blank w1 ∧ token_shape t5 ∧ blank w2 ∧ token_shape t6
    ∧ blank w3 ∧ token_shape t7 ∧ blank w4 ∧ token_shape t8.

(** The pattern after the day marker. *)
Definition pattern_tail : regex :=
  Seq spaces1
  (Seq (Grp 5 time_token) (Seq spaces1
  (Seq (Grp 6 time_token) (Seq spaces1
  (Seq (Grp 7 time_token) (Seq spaces1
  (Seq (Grp 8 time_token)
  (Seq (opt_token 9)
       (opt_token 10))))))))).

(** ** The table path *)

(** A row qualifies as header: at least six cells, and its upper-cased
    joined text contains MAGHRIB and also FAJR or DATE. *)
Definition qualifies (r : row) : Prop :=
  6 ≤ length r
  ∧ substring (lit "MAGHRIB") (row_text r)
  ∧ (substring (lit "FAJR") (row_text r) ∨ substring (lit "DATE") (row_text r)).

(** Row [i] is the first qualifying row of the table. *)
Definition first_header (t : table) (i : nat) : Prop :=
  (∃ r, t !! i = Some r ∧ qualifies r)
  ∧ ∀ j r, j < i → t !! j = Some r → ¬ qualifies r.

(** The rows handed to the single-row parser: those after the header row,
    none when the table is too short or has no header. *)
Definition data_rows (t : table) : list row :=
  if bool_decide (t = []) || (length t <? 2) then []
  else match _find_header_row t with
       | Some i => drop (S i) t
       | None => []
       end.

(** The three mandatory fields are present. *)
Definition mandatory_present (d : PrayerRecord) : Prop :=
  fajr d ≠ [] ∧ maghrib d ≠ [] ∧ isha d ≠ [].

Section TableSpec.
Variable parse_date : str → str → Res (option str).
Variable clean_time : str → Res str.

(** The record a data row contributes, if any. *)
Definition accepted (month : str) (r : row) : option PrayerRecord :=
  match _parse_single_row parse_date clean_time r month with
  | Return o => o
  | Raise _ => None
  end.

(** The date resolver gives no usable date for the token. *)
Definition resolver_rejects (tok month : str) : Prop :=
  parse_date tok month = Return None
  ∨ parse_date tok month = Return (Some [])
  ∨ ∃ e, parse_date tok month = Raise e.

(** The early checks of the single-row parser that make it reject. *)
Definition rejected_early (r : row) (month : str) : Prop :=
  r = [] ∨ length r < 6
  ∨ ∃ c, r !! 0 = Some c
      ∧ (c = None ∨ c = Some []
         ∨ ∃ s, c = Some s
             ∧ (lower s = lit "none" ∨ lower s = lit "null"
                ∨ Forall (λ a, isdigit a = false) s
                ∨ resolver_rejects (strip s) month)).

(** All the early checks pass, the resolver answering [dt]. *)
Definition passes_checks (r : row) (month : str) (dt : str) : Prop :=
  6 ≤ length r
  ∧ ∃ s, r !! 0 = Some (Some s) ∧ s ≠ []
      ∧ lower s ≠ lit "none" ∧ lower s ≠ lit "null"
      ∧ Exists (λ a, isdigit a = true) s
      ∧ parse_date (strip s) month = Return (Some dt) ∧ dt ≠ [].

(** The time fields of a record are the cleaner's answers for cells 1
    to 6. *)
Definition cleaned_from (r : row) (d : PrayerRecord) : Prop :=
  ∃ c1 c2 c3 c4 c5 c6,
    r !! 1 = Some c1 ∧ r !! 2 = Some c2 ∧ r !! 3 = Some c3
    ∧ r !! 4 = Some c4 ∧ r !! 5 = Some c5 ∧ r !! 6 = Some c6
    ∧ clean_time (str_or_empty c1) = Return (fajr d)
    ∧ clean_time (str_or_empty c2) = Return (sunrise d)
    ∧ clean_time (str_or_empty c3) = Return (dhuhr d)
    ∧ clean_time (str_or_empty c4) = Return (asr d)
    ∧ clean_time (str_or_empty c5) = Return (maghrib d)
    ∧ clean_time (str_or_empty c6) = Return (isha d).
End TableSpec.

(** ** Stand-ins for the collaborators, for concrete runs *)

(** A date resolver: the day number, joined to the month; it raises on a
    token that is not a number and gives no date outside 1..31. *)
Definition stub_parse_date (tok month : str) : Res (option str) :=
  n ← int tok;
  if ((1 <=? n) && (n <=? 31))%Z
  then Return (Some (month ++ lit "-" ++ format_02d n))
  else Return None.

(** A time cleaner: trims white space. *)
Definition stub_clean_time (s : str) : Res str := Return (strip s).

(** A cleaner that knows no time at all. *)
Definition blank_clean_time (s : str) : Res str := Return [].

(** A resolver that always fails. *)
Definition failing_parse_date (tok month : str) : Res (option str) := Return None.

(** A row of string cells. *)
Definition cells (l : list string) : row := map (λ s, Some (lit s)) l.

(** ** Concrete inputs *)

Definition header_cells : row :=
  cells ["DATE"; "FAJR"; "SUNRISE"; "DHUHR"; "ASR"; "MAGHRIB"; "ISHA"].

(** The data row of the first scenario. *)
Definition day1_cells : row :=
  cells ["1"; "5:00 AM"; "6:15 AM"; "12:30 PM"; "3:45 PM"; "6:30 PM"; "7:45 PM"].

(** The data row of the second scenario: Maghrib and Isha are missing. *)
Definition day2_cells : row :=
  cells ["2"; "5:01 AM"; ""; "12:31 PM"; "3:46 PM"; ""; ""].

(** A row whose date token makes the stand-in resolver raise. *)
Definition bad_date_cells : row :=
  cells ["3rd"; "5:02 AM"; "6:17 AM"; "12:32 PM"; "3:47 PM"; "6:32 PM"; "7:47 PM"].

Definition day4_cells : row :=
  cells ["4"; "5:03 AM"; "6:18 AM"; "12:33 PM"; "3:48 PM"; "6:33 PM"; "7:48 PM"].

(** Rows that the early checks turn down: a date cell reading None, and a
    date cell without a digit. *)
Definition none_date_cells : row :=
  cells ["None"; "5:00 AM"; "6:15 AM"; "12:30 PM"; "3:45 PM"; "6:30 PM"; "7:45 PM"].
Definition weekday_cells : row :=
  cells ["Mon"; "5:00 AM"; "6:15 AM"; "12:30 PM"; "3:45 PM"; "6:30 PM"; "7:45 PM"].

(** A title line above the header; too short to be a header itself. *)
Definition title_cells : row := cells ["MAGHRIB AND FAJR DATE"; "ZONE 1"].

Definition sample_table : table :=
  [title_cells; header_cells; day1_cells; day2_cells; bad_date_cells; day4_cells].

(** The records of day 1 and day 4 as the stand-ins produce them. *)
Definition accepted_day1 : PrayerRecord :=
  MkRecord (lit "03-01") (lit "5:00 AM") (lit "6:15 AM") (lit "12:30 PM")
    (lit "3:45 PM") (lit "6:30 PM") (lit "7:45 PM").
Definition accepted_day4 : PrayerRecord :=
  MkRecord (lit "03-04") (lit "5:03 AM") (lit "6:18 AM") (lit "12:33 PM")
    (lit "3:48 PM") (lit "6:33 PM") (lit "7:48 PM").

(** The texts of the fourth and fifth scenarios. *)
Definition text_six_tokens : str :=
  lit "3-Mar 5:00AM 6:15AM 12:30PM 3:45PM 6:30PM 7:45PM".
Definition text_four_tokens : str :=
  lit "Mar-4 5:00AM 6:15AM 12:30PM 3:45PM".

(** A match with Maghrib but no Isha. *)
Definition text_five_tokens : str :=
  lit "Mar-5 5:00AM 6:15AM 12:30PM 3:45PM 6:30PM".

(** Time tokens with a single letter A or P. *)
Definition text_single_letter : str := lit "3-Mar 5:00A 6:15a 12:30P 3:45 p".

(** Time tokens without any AM/PM letter. *)
Definition text_bare_tokens : str := lit "3-Mar 5:00 6:15 12:30 3:45".

(** Two days on two lines, the second one repeated. *)
Definition text_two_days : str :=
  lit "9-Mar 5:09AM 6:10AM 12:29PM 3:40PM 6:21PM 7:31PM
2-Mar 5:00AM 6:15AM 12:30PM 3:45PM
2-Mar 5:00AM 6:15AM 12:30PM 3:45PM".

(** ** Vocabulary of the further properties *)

(** A cell with [None] read as the empty string. *)
Definition blank_none (c : cell) : cell :=
  match c with
  | None => Some []
  | Some s => Some s
  end.

(** Some cell of the row holds the keyword, in any case. *)
Definition keyword_in_cell (kw : str) (r : row) : Prop :=
  ∃ s, Some s ∈ r ∧ substring kw (upper s).

(** The whole text of a document: every page's text followed by a line
    feed, in page order. *)
Definition whole_text (pages : list Page) : str :=
  concat (map (λ page, text_or_empty page ++ [newline]) pages).

(** All tables of a document, in page order. *)
Definition whole_tables (pages : list Page) : list table :=
  concat (map (λ page, default [] (page_tables page)) pages).

(** The shortest text the fallback pattern can match, as in
    [1-Jan 1:00A 1:00A 1:00A 1:00A]. *)
Definition min_match_length : nat := 29.

(** A data row of six cells: it has no isha cell. *)
Definition six_cells : row :=
  cells ["1"; "5:00 AM"; "6:15 AM"; "12:30 PM"; "3:45 PM"; "6:30 PM"].

(** The row of day 1 with a remark column, with its first time missing as
    [None], and with white space around its date. *)
Definition day1_remark_cells : row := day1_cells ++ cells ["full moon"; "x"].
Definition day1_padded_cells : row :=
  cells ["  1 "; "5:00 AM"; "6:15 AM"; "12:30 PM"; "3:45 PM"; "6:30 PM"; "7:45 PM"].

(** A continuation of [sample_table] on a further page. *)
Definition more_rows : list row := [day2_cells; day4_cells].

(** A two-page document: the first page ends in the middle of day 3. *)
Definition page_one : Page :=
  MkPage (Some (lit "Zone 1 March
2-Mar 5:00AM 6:15AM 12:30PM 3:45PM 6:30PM 7:45PM
3-Mar 5:01AM 6:16AM 12:31PM 3:46PM"))
    (Some [[title_cells]; [header_cells; day1_cells]]).
Definition page_two : Page :=
  MkPage (Some (lit "6:31PM 7:46PM")) None.
Definition page_blank : Page := MkPage None (Some []).
Definition sample_pages : list Page := [page_one; page_blank; page_two].

(** Two pages whose join changes the matches: the first ends in a time
    without its letter, the second opens with the letter A of its month. *)
Definition page_cut : Page :=
  MkPage (Some (lit "1-Jan 1:00A 1:00A 1:00A 1:00A 6:30")) None.
Definition page_next : Page :=
  MkPage (Some (lit "Apr-2 2:00P 2:10P 2:20P 2:30P 2:40P 2:45P")) None.

(** A document store with one file. *)
Definition sample_open (pdf_path : str) : Res (list Page) :=
  if bool_decide (pdf_path = lit "march.pdf") then Return sample_pages
  else Raise (OtherError "FileNotFoundError").

(** A record with its time fields rewritten by [f], the date kept. *)
Definition recase_record (f : str → str) (d : PrayerRecord) : PrayerRecord :=
  MkRecord (date d) (f (fajr d)) (f (sunrise d)) (f (dhuhr d)) (f (asr d))
    (f (maghrib d)) (f (isha d)).

(** A match with its captured texts rewritten character by character, the
    span kept. *)
Definition recase_match (g : ascii → ascii) (m : rematch) : rematch :=
  MkMatch (m_start m) (m_end m) (map (option_map (map g)) (m_groups m)).

(** Stand-ins for the zone and month detectors. *)
Definition stub_zone (text : str) : Res str :=
  if contains (lit "Zone 1") text then Return (lit "Zone 1")
  else Raise (OtherError "no zone").
Definition stub_month (text : str) : Res str :=
  if contains (lit "March") text then Return (lit "03")
  else Raise (OtherError "no month").

End Spec.

(** * Properties of the string and matcher primitives *)

Import Py Re PDFParser Spec.

Ltac ascii_cases a := destruct a as [[] [] [] [] [] [] [] []].

Section StringFacts.

Lemma startswith_spec p s : startswith p s = true ↔ ∃ v, s = p ++ v.
Proof.
  revert s; induction p as [|a p IH]; intros s; simpl.
  - split; [eauto | done].
  - destruct s as [|b s].
    + split; [done | intros [v Hv]; discriminate].
    + destruct (decide (a = b)) as [->|Hne].
      * rewrite IH. split; intros [v Hv]; exists v; simpl in *; congruence.
      * split; [done | intros [v Hv]; simpl in Hv; congruence].
Qed.

Lemma contains_spec needle hay : contains needle hay = true ↔ substring needle hay.
Proof.
  unfold substring. induction hay as [|b hay IH].
  - simpl. rewrite orb_false_r, startswith_spec. split.
    + intros [v Hv]. exists [], v. done.
    + intros (u & v & Huv). destruct u; [eauto|discriminate].
  - cbn [contains]. rewrite orb_true_iff, startswith_spec, IH. split.
    + intros [[v Hv]|(u & v & Hv)].
      * exists [], v. done.
      * exists (b :: u), v. simpl. congruence.
    + intros (u & v & Huv). destruct u as [|b' u].
      * left. exists v. done.
      * right. exists u, v. simpl in Huv. congruence.
Qed.

Lemma lstrip_subseteq s a : a ∈ lstrip s → a ∈ s.
Proof.
  induction s as [|b s IH]; simpl; [done|].
  destruct (isspace b); [|done]. intros H. right. auto.
Qed.

Lemma lstrip_keeps s a : a ∈ s → isspace a = false → a ∈ lstrip s.
Proof.
  induction s as [|b s IH]; simpl; [done|].
  intros Hin Ha. destruct (isspace b) eqn:Hb; [|done].
  apply elem_of_cons in Hin as [->|Hin]; [congruence | auto].
Qed.

Lemma strip_subseteq s a : a ∈ strip s → a ∈ s.
Proof.
  unfold strip, rstrip. rewrite elem_of_reverse. intros H.
  apply lstrip_subseteq, elem_of_reverse, lstrip_subseteq in H. done.
Qed.

Lemma strip_keeps s a : a ∈ s → isspace a = false → a ∈ strip s.
Proof.
  intros Hin Ha. unfold strip, rstrip. rewrite elem_of_reverse.
  apply lstrip_keeps; [|done]. rewrite elem_of_reverse.
  by apply lstrip_keeps.
Qed.

Lemma strip_no_space s : Forall (λ a, isspace a = false) s → strip s = s.
Proof.
  assert (Hl : ∀ t, Forall (λ a, isspace a = false) t → lstrip t = t).
  { intros t Ht. destruct Ht as [|b t Hb Ht]; simpl; [done | by rewrite Hb]. }
  intros Hs. unfold strip, rstrip. rewrite (Hl s Hs), Hl.
  - apply reverse_involutive.
  - by apply Forall_reverse.
Qed.

Lemma isdigit_not_space a : isdigit a = true → isspace a = false.
Proof. ascii_cases a; vm_compute; congruence. Qed.

Lemma lower_char_space a : isspace (lower_char a) = isspace a.
Proof. ascii_cases a; reflexivity. Qed.

Lemma isdigit_enum a : isdigit a = true → a ∈ lit "0123456789".
Proof.
  ascii_cases a; vm_compute; try congruence; intros _;
    repeat first [ apply list_elem_of_here | apply list_elem_of_further ].
Qed.

Lemma existsb_strip_digit s : existsb isdigit (strip s) = existsb isdigit s.
Proof.
  apply eq_true_iff_eq. rewrite !existsb_exists. split.
  - intros (a & Hin & Ha). exists a. split; [|done].
    apply list_elem_of_In, strip_subseteq, list_elem_of_In, Hin.
  - intros (a & Hin & Ha). exists a. split; [|done].
    apply list_elem_of_In, strip_keeps; [by apply list_elem_of_In|].
    by apply isdigit_not_space.
Qed.

End StringFacts.

(** ** The matcher against the denotation *)

Section MatcherFacts.
Context {A : Type}.
Variable icase : bool.

Lemma rep_sound cl s : ∀ lo hi (k : str → option A) x,
  rep icase cl lo hi s k = Some x →
  ∃ w s', s = w ++ s'
    ∧ Forall (λ a, cmatch icase cl a = true) w
    ∧ lo ≤ length w ∧ (∀ h, hi = Some h → length w ≤ h)
    ∧ k s' = Some x.
Proof.
  induction s as [|a s IH]; intros lo hi k x H.
  - simpl in H. destruct (lo =? 0) eqn:Hlo; [|done].
    apply Nat.eqb_eq in Hlo. exists [], []. repeat split; simpl; auto with lia.
  - cbn [rep] in H.
    assert (Hstop : (if lo =? 0 then k (a :: s) else None) = Some x →
      ∃ w s', a :: s = w ++ s'
        ∧ Forall (λ a, cmatch icase cl a = true) w
        ∧ lo ≤ length w ∧ (∀ h, hi = Some h → length w ≤ h)
        ∧ k s' = Some x).
    { destruct (lo =? 0) eqn:Hlo; [|done]. apply Nat.eqb_eq in Hlo.
      intros Hk. exists [], (a :: s). repeat split; simpl; auto with lia. }
    destruct (match hi with Some 0 => false | _ => true end
              && cmatch icase cl a) eqn:Hgo; [|auto].
    apply andb_true_iff in Hgo as [Hmore Ha].
    destruct (rep icase cl (pred lo) (pred <$> hi) s k) as [y|] eqn:Hrec; [|auto].
    injection H as ->.
    apply IH in Hrec as (w & s' & -> & Hw & Hlo & Hhi & Hk).
    exists (a :: w), s'. repeat split; simpl; auto with lia.
    intros h ->. destruct h as [|h]; [done|].
    specialize (Hhi h eq_refl). lia.
Qed.

Lemma rep_complete cl w : ∀ lo hi s' (k : str → option A),
  Forall (λ a, cmatch icase cl a = true) w →
  lo ≤ length w → (∀ h, hi = Some h → length w ≤ h) →
  is_Some (k s') →
  is_Some (rep icase cl lo hi (w ++ s') k).
Proof.
  induction w as [|a w IH]; intros lo hi s' k Hw Hlo Hhi Hk.
  - simpl in Hlo. assert (lo = 0) as -> by lia. simpl.
    destruct s' as [|b s']; simpl; [done|].
    destruct (_ && _); [|done].
    destruct (rep icase cl 0 (pred <$> hi) s' k); [by eexists|done].
  - apply Forall_cons in Hw as [Ha Hw]. cbn [app rep]. rewrite Ha.
    assert (match hi with Some 0 => false | _ => true end = true) as ->.
    { destruct hi as [[|h]|]; try done. specialize (Hhi 0 eq_refl). simpl in Hhi. lia. }
    cbn [andb].
    assert (Hrec : is_Some (rep icase cl (pred lo) (pred <$> hi) (w ++ s') k)).
    { apply IH; [done| simpl in Hlo; lia | |done].
      intros h Hh. destruct hi as [hh|]; [|done]. simpl in Hh.
      specialize (Hhi hh eq_refl). simpl in Hhi. injection Hh as <-. lia. }
    destruct Hrec as [y ->]. by eexists.
Qed.

(** Soundness: a result of the matcher comes from a word of the
    denotation, with the continuation run on the rest. *)
Lemma rmatch_sound r : ∀ s c (k : str → caps → option A) x,
  rmatch icase r s c k = Some x →
  ∃ w s' c', s = w ++ s' ∧ den icase r w c c' ∧ k s' c' = Some x.
Proof.
  induction r as [cl|lo hi cl|r1 IH1 r2 IH2|r1 IH1 r2 IH2|r1 IH1|n r1 IH1];
    intros s c k x H; cbn [rmatch] in H.
  - destruct s as [|a s]; [done|].
    destruct (cmatch icase cl a) eqn:Ha; [|done].
    exists [a], s, c. simpl. eauto 10.
  - apply rep_sound in H as (w & s' & -> & Hw & Hlo & Hhi & Hk).
    exists w, s', c. simpl. repeat split; auto.
  - apply IH1 in H as (w1 & s1 & c1 & -> & H1 & H).
    apply IH2 in H as (w2 & s2 & c2 & -> & H2 & H).
    exists (w1 ++ w2), s2, c2. rewrite <- app_assoc. simpl. eauto 10.
  - destruct (rmatch icase r1 s c k) as [y|] eqn:Hr1.
    + injection H as ->. apply IH1 in Hr1 as (w & s' & c' & -> & H1 & Hk).
      exists w, s', c'. simpl. auto.
    + apply IH2 in H as (w & s' & c' & -> & H2 & Hk).
      exists w, s', c'. simpl. auto.
  - destruct (rmatch icase r1 s c k) as [y|] eqn:Hr1.
    + injection H as ->. apply IH1 in Hr1 as (w & s' & c' & -> & H1 & Hk).
      exists w, s', c'. simpl. auto.
    + exists [], s, c. simpl. auto.
  - apply IH1 in H as (w & s' & c' & -> & H1 & Hk).
    rewrite length_app, Nat.add_sub, take_app_length in Hk.
    exists w, s', (<[n := Some w]> c'). simpl. eauto.
Qed.

(** Completeness: when the denotation has a word whose rest the
    continuation accepts, the matcher does not fail (it may prefer another
    word). *)
Lemma rmatch_complete r : ∀ w s' c c' (k : str → caps → option A),
  den icase r w c c' → is_Some (k s' c') →
  is_Some (rmatch icase r (w ++ s') c k).
Proof.
  induction r as [cl|lo hi cl|r1 IH1 r2 IH2|r1 IH1 r2 IH2|r1 IH1|n r1 IH1];
    intros w s' c c' k Hden Hk; cbn [rmatch den] in *.
  - destruct Hden as (a & -> & Ha & ->). simpl. by rewrite Ha.
  - destruct Hden as (Hw & Hlo & Hhi & ->). by apply rep_complete.
  - destruct Hden as (w1 & w2 & c1 & -> & H1 & H2). rewrite <- app_assoc.
    eapply IH1; [done|]. by eapply IH2.
  - destruct Hden as [H1|H2].
    + destruct (IH1 _ _ _ _ _ H1 Hk) as [y ->]. by eexists.
    + destruct (rmatch icase r1 (w ++ s') c k); [by eexists|]. by eapply IH2.
  - destruct Hden as [H1|[-> ->]].
    + destruct (IH1 _ _ _ _ _ H1 Hk) as [y ->]. by eexists.
    + simpl. destruct (rmatch icase r1 s' c k); [by eexists|done].
  - destruct Hden as (c1 & H1 & ->). eapply IH1; [done|].
    by rewrite length_app, Nat.add_sub, take_app_length.
Qed.
End MatcherFacts.

(** Groups outside an expression keep their value. *)
Lemma den_frame icase r : ∀ w c c' n,
  den icase r w c c' → n ∉ groups_of r → c' !! n = c !! n.
Proof.
  induction r as [cl|lo hi cl|r1 IH1 r2 IH2|r1 IH1 r2 IH2|r1 IH1|m r1 IH1];
    intros w c c' n Hden Hn; cbn [den groups_of] in *.
  - by destruct Hden as (a & _ & _ & ->).
  - by destruct Hden as (_ & _ & _ & ->).
  - destruct Hden as (w1 & w2 & c1 & _ & H1 & H2).
    rewrite not_elem_of_app in Hn. destruct Hn.
    rewrite (IH2 _ _ _ _ H2), (IH1 _ _ _ _ H1); done.
  - rewrite not_elem_of_app in Hn. destruct Hn. destruct Hden; eauto.
  - destruct Hden as [H1|[_ ->]]; eauto.
  - destruct Hden as (c1 & H1 & ->). rewrite not_elem_of_cons in Hn.
    destruct Hn. rewrite list_lookup_insert_ne by done. eauto.
Qed.

(** The number of group slots does not change. *)
Lemma den_length icase r : ∀ w c c', den icase r w c c' → length c' = length c.
Proof.
  induction r as [cl|lo hi cl|r1 IH1 r2 IH2|r1 IH1 r2 IH2|r1 IH1|m r1 IH1];
    intros w c c' Hden; cbn [den] in *.
  - by destruct Hden as (a & _ & _ & ->).
  - by destruct Hden as (_ & _ & _ & ->).
  - destruct Hden as (w1 & w2 & c1 & _ & H1 & H2).
    rewrite (IH2 _ _ _ H2). eauto.
  - destruct Hden; eauto.
  - destruct Hden as [H1|[_ ->]]; eauto.
  - destruct Hden as (c1 & H1 & ->). rewrite length_insert. eauto.
Qed.

(** ** The scan of [finditer] *)

Section ScanFacts.
Variable icase : bool.
Variable r : regex.
Variable ngroups : nat.

Lemma match_here_sound s s' c :
  match_here icase r ngroups s = Some (s', c) →
  ∃ w, s = w ++ s' ∧ den icase r w (replicate (S ngroups) None) c.
Proof.
  unfold match_here. intros H.
  apply rmatch_sound in H as (w & s1 & c1 & -> & Hden & [= <- <-]). eauto.
Qed.

Lemma scan_ge s : ∀ pos skip m,
  m ∈ scan icase r ngroups pos skip s → pos + skip ≤ m_start m.
Proof.
  induction s as [|a s IH]; intros pos skip m; destruct skip as [|n]; cbn [scan].
  - destruct (match_here icase r ngroups []) as [[s' c]|]; [|by intros ?%elem_of_nil].
    intros ->%list_elem_of_singleton. simpl. lia.
  - by intros ?%elem_of_nil.
  - destruct (match_here icase r ngroups (a :: s)) as [[s' c]|].
    + intros [->|Hin%IH]%elem_of_cons; simpl; lia.
    + intros Hin%IH. lia.
  - intros Hin%IH. lia.
Qed.

(** Matches come out left to right and do not overlap. *)
Lemma scan_sorted s : ∀ pos skip,
  StronglySorted (λ m1 m2, m_end m1 ≤ m_start m2) (scan icase r ngroups pos skip s).
Proof.
  induction s as [|a s IH]; intros pos skip; destruct skip as [|n]; cbn [scan].
  - destruct (match_here icase r ngroups []) as [[s' c]|]; repeat constructor.
  - constructor.
  - destruct (match_here icase r ngroups (a :: s)) as [[s' c]|]; [|apply IH].
    constructor; [apply IH|]. apply Forall_forall. intros m Hin%scan_ge.
    cbn [m_end]. lia.
  - apply IH.
Qed.

(** Every reported match is a match of the pattern at its start offset. *)
Lemma scan_match s : ∀ pos skip m,
  m ∈ scan icase r ngroups pos skip s →
  ∃ s', match_here icase r ngroups (drop (m_start m - pos) s) = Some (s', m_groups m)
    ∧ m_end m = m_start m + (length (drop (m_start m - pos) s) - length s').
Proof.
  induction s as [|a s IH]; intros pos skip m; destruct skip as [|n]; cbn [scan].
  - destruct (match_here icase r ngroups []) as [[s' c]|] eqn:Hm; [|by intros ?%elem_of_nil].
    intros ->%list_elem_of_singleton.
    cbn [m_start m_end m_groups]. rewrite Nat.sub_diag. cbn [drop]. eauto.
  - by intros ?%elem_of_nil.
  - assert (Hrec : ∀ k, m ∈ scan icase r ngroups (S pos) k s →
      ∃ s', match_here icase r ngroups (drop (m_start m - pos) (a :: s)) = Some (s', m_groups m)
        ∧ m_end m = m_start m + (length (drop (m_start m - pos) (a :: s)) - length s')).
    { intros k Hin. pose proof (scan_ge _ _ _ _ Hin) as Hge.
      replace (m_start m - pos) with (S (m_start m - S pos)) by lia.
      by apply IH in Hin. }
    destruct (match_here icase r ngroups (a :: s)) as [[s' c]|] eqn:Hm; [|by apply Hrec].
    intros [->|Hin]%elem_of_cons; [|by eapply Hrec].
    cbn [m_start m_end m_groups]. rewrite Nat.sub_diag. cbn [drop]. eauto.
  - intros Hin. pose proof (scan_ge _ _ _ _ Hin) as Hge.
    replace (m_start m - pos) with (S (m_start m - S pos)) by lia.
    by apply IH in Hin.
Qed.

(** No match is missed: a position where the pattern matches starts a
    reported match or lies inside one. *)
Lemma scan_complete s : ∀ pos skip i,
  skip ≤ i → i ≤ length s →
  is_Some (match_here icase r ngroups (drop i s)) →
  ∃ m, m ∈ scan icase r ngroups pos skip s
    ∧ (m_start m = pos + i ∨ (m_start m < pos + i ∧ pos + i < m_end m)).
Proof.
  induction s as [|a s IH]; intros pos skip i Hskip Hi Hm; cbn [scan length] in *.
  - assert (i = 0) as -> by lia. assert (skip = 0) as -> by lia.
    cbn [drop] in Hm. destruct Hm as [[s' c] ->].
    eexists. split; [apply list_elem_of_here|]. left. cbn [m_start]. lia.
  - destruct skip as [|n].
    + destruct (match_here icase r ngroups (a :: s)) as [[s' c]|] eqn:Hhere.
      * destruct i as [|i].
        { eexists. split; [apply list_elem_of_here|]. left. cbn [m_start]. lia. }
        destruct (decide (S i < S (length s) - length s')) as [Hin|Hout].
        { eexists. split; [apply list_elem_of_here|]. right. cbn [m_start m_end]. lia. }
        destruct (IH (S pos) (pred (S (length s) - length s')) i) as (m & Hm' & Hpos);
          [lia | lia | done |].
        exists m. split; [by apply list_elem_of_further|]. lia.
      * destruct i as [|i]; [cbn [drop] in Hm; rewrite Hhere in Hm; by destruct Hm|].
        destruct (IH (S pos) 0 i) as (m & Hm' & Hpos); [lia | lia | done |].
        exists m. split; [done|]. lia.
    + destruct i as [|i]; [lia|].
      destruct (IH (S pos) n i) as (m & Hm' & Hpos); [lia | lia | done |].
      exists m. split; [done|]. lia.
Qed.

(** No match anywhere means that nothing is found. *)
Lemma scan_nil s : ∀ pos skip,
  (∀ i, match_here icase r ngroups (drop i s) = None) →
  scan icase r ngroups pos skip s = [].
Proof.
  induction s as [|a s IH]; intros pos skip Hno; destruct skip as [|n]; cbn [scan]; try done.
  - pose proof (Hno 0) as H0. cbn [drop] in H0. by rewrite H0.
  - pose proof (Hno 0) as H0. cbn [drop] in H0. rewrite H0.
    apply IH. intros i. apply (Hno (S i)).
  - apply IH. intros i. apply (Hno (S i)).
Qed.
End ScanFacts.

(** ** What the fallback pattern captures *)

Ltac solve_elem :=
  repeat first [ apply list_elem_of_here | apply list_elem_of_further ].

Section PatternFacts.

Lemma cmatch_ampm a : cmatch true (CSet (lit "APap")) a = true → a ∈ lit "APap".
Proof. ascii_cases a; vm_compute; try congruence; intros _; solve_elem. Qed.

Lemma cmatch_m a : cmatch true (CSet (lit "Mm")) a = true → a ∈ lit "Mm".
Proof. ascii_cases a; vm_compute; try congruence; intros _; solve_elem. Qed.

Lemma cmatch_colon a : cmatch true (CLit ":") a = true → a = ":"%char.
Proof. ascii_cases a; vm_compute; congruence. Qed.

Lemma den_no_groups icase r w c c' :
  groups_of r = [] → den icase r w c c' → c' = c.
Proof.
  intros Hg Hden. apply list_eq. intros n.
  eapply den_frame; [done|]. rewrite Hg. apply not_elem_of_nil.
Qed.

Lemma den_day_digits w c c' : den true day_digits w c c' → day_ok w ∧ c' = c.
Proof.
  unfold day_digits. cbn [den]. intros (Hw & Hlo & Hhi & ->).
  specialize (Hhi 2 eq_refl). split; [|done]. split; [done|lia].
Qed.

Lemma den_time_token w c c' : den true time_token w c c' → token_shape w ∧ c' = c.
Proof.
  unfold time_token. cbn [den].
  intros (h & w1 & c1 & -> & (Hh & Hhlo & Hhhi & ->)
          & colon & w2 & c2 & -> & (a & -> & Ha & ->)
          & m & w3 & c3 & -> & (Hm & Hmlo & Hmhi & ->)
          & sp & w4 & c4 & -> & (Hsp & _ & _ & ->)
          & w5 & mm & c5 & -> & (b & -> & Hb & ->) & Hmm).
  apply cmatch_colon in Ha as ->. apply cmatch_ampm in Hb.
  specialize (Hhhi 2 eq_refl). specialize (Hmhi 2 eq_refl).
  assert (c' = c ∧ (mm = [] ∨ ∃ b', mm = [b'] ∧ b' ∈ lit "Mm")) as [-> Hshape].
  { destruct Hmm as [(b' & -> & Hb' & ->)|[-> ->]]; [|auto].
    split; [done|]. right. exists b'. split; [done|]. by apply cmatch_m. }
  split; [|done]. exists h, m, sp, b, mm. simpl.
  repeat split; auto with lia.
Qed.

Lemma den_day_marker w c c' :
  den true day_marker w c c' →
  ∃ d, day_ok d
    ∧ ((∃ ab, c' = <[2 := Some ab]> (<[1 := Some d]> c))
       ∨ (∃ ab, c' = <[4 := Some d]> (<[3 := Some ab]> c))).
Proof.
  unfold day_marker. cbn [den].
  intros [(d & w1 & c1 & -> & (c0 & Hd & ->) & x & ab & c2 & -> & (a & -> & _ & ->) & c3 & Hab & ->)
         |(ab & w1 & c1 & -> & (c0 & Hab & ->) & x & d & c2 & -> & (a & -> & _ & ->) & c3 & Hd & ->)].
  - apply den_day_digits in Hd as [Hd ->].
    apply den_no_groups in Hab as ->; [|done]. exists d. eauto.
  - apply den_day_digits in Hd as [Hd ->].
    apply den_no_groups in Hab as ->; [|done]. exists d. eauto.
Qed.

Lemma den_spaces1 w c c' :
  den true spaces1 w c c' → Forall (λ a, isspace a = true) w ∧ w ≠ [] ∧ c' = c.
Proof.
  unfold spaces1. cbn [den]. intros (Hw & Hlo & _ & ->).
  repeat split; [done|]. intros ->. simpl in Hlo. lia.
Qed.

Lemma den_token_group n w c c' :
  den true (Grp n time_token) w c c' → token_shape w ∧ c' = <[n := Some w]> c.
Proof. cbn [den]. intros (c1 & [Ht ->]%den_time_token & ->). done. Qed.

Lemma den_pattern_head w c c' :
  den true pattern_head w c c' →
  ∃ c1 t5 t6 t7 t8 u v,
    (∃ mk, den true day_marker mk c c1)
    ∧ c' = <[8 := Some t8]> (<[7 := Some t7]> (<[6 := Some t6]> (<[5 := Some t5]> c1)))
    ∧ token_shape t5 ∧ token_shape t6 ∧ token_shape t7 ∧ token_shape t8
    ∧ w = u ++ t5 ++ v.
Proof.
  unfold pattern_head. cbn [den].
  intros (mk & w1 & c1 & -> & Hmk
          & sp1 & w2 & ? & -> & (_ & _ & ->)%den_spaces1
          & t5 & w3 & ? & -> & (H5 & ->)%den_token_group
          & sp2 & w4 & ? & -> & (_ & _ & ->)%den_spaces1
          & t6 & w5 & ? & -> & (H6 & ->)%den_token_group
          & sp3 & w6 & ? & -> & (_ & _ & ->)%den_spaces1
          & t7 & w7 & ? & -> & (H7 & ->)%den_token_group
          & sp4 & t8 & ? & -> & (_ & _ & ->)%den_spaces1
          & (H8 & ->)%den_token_group).
  exists c1, t5, t6, t7, t8, (mk ++ sp1), (sp2 ++ t6 ++ sp3 ++ t7 ++ sp4 ++ t8).
  repeat split; eauto. by rewrite <- !app_assoc.
Qed.

Lemma den_opt_body n w c c' :
  den true (opt_body n) w c c' →
  ∃ sp t, w = sp ++ t ∧ token_shape t ∧ c' = <[n := Some t]> c
    ∧ ∀ m, den true (opt_body m) w c (<[m := Some t]> c).
Proof.
  unfold opt_body. cbn [den].
  intros (sp & t & c1 & -> & Hsp & c2 & Ht & ->).
  pose proof Hsp as (_ & _ & ->)%den_spaces1.
  pose proof Ht as (Hshape & ->)%den_time_token.
  exists sp, t. split; [done|]. split; [done|]. split; [done|]. intros m.
  exists sp, t, c. split; [done|]. split; [done|]. by exists c.
Qed.

Lemma rmatch_opt {A} icase r s c (k : str → caps → option A) :
  rmatch icase (Opt r) s c k
  = match rmatch icase r s c k with Some x => Some x | None => k s c end.
Proof. reflexivity. Qed.

Lemma match_here_split s :
  match_here true pattern 10 s
  = rmatch true pattern_head s (replicate 11 None)
      (λ s1 c1, rmatch true (Opt (opt_body 9)) s1 c1
         (λ s2 c2, rmatch true (Opt (opt_body 10)) s2 c2 accept)).
Proof. reflexivity. Qed.

End PatternFacts.

Section PatternMatch.

Lemma opt_body_continues n s c :
  is_Some (rmatch true (Opt (opt_body n)) s c accept).
Proof.
  apply (rmatch_complete true (Opt (opt_body n)) [] s c c accept).
  - cbn [den]. by right.
  - by eexists.
Qed.

(** The groups of any match of the whole pattern: the day in exactly one
    of groups 1 and 4, four tokens in groups 5 to 8, and group 10 only
    together with group 9. *)
Lemma match_here_pattern s s' c :
  match_here true pattern 10 s = Some (s', c) →
  well_formed_groups c
  ∧ ∃ w u t v, s = w ++ s' ∧ w = u ++ t ++ v ∧ token_shape t.
Proof.
  rewrite match_here_split. intros H.
  apply rmatch_sound in H as (w & s1 & c8 & -> & Hhead & H).
  apply den_pattern_head in Hhead
    as (c1 & t5 & t6 & t7 & t8 & u & v & [mk Hmk] & -> & H5 & H6 & H7 & H8 & ->).
  apply den_day_marker in Hmk as (d & Hd & Hc1).
  set (c0 := replicate 11 None) in *.
  rewrite rmatch_opt in H.
  destruct (rmatch true (opt_body 9) s1 _ _) as [y|] eqn:E9.
  - injection H as ->.
    apply rmatch_sound in E9 as (w9 & s2 & c9 & -> & H9 & H).
    apply den_opt_body in H9 as (sp9 & t9 & -> & Ht9 & -> & _).
    rewrite rmatch_opt in H.
    destruct (rmatch true (opt_body 10) s2 _ _) as [y|] eqn:E10.
    + injection H as ->.
      apply rmatch_sound in E10 as (w10 & s3 & c10 & -> & H10 & [= <- <-]).
      apply den_opt_body in H10 as (sp10 & t10 & -> & Ht10 & -> & _).
      split.
      * destruct Hc1 as [[ab ->]|[ab ->]].
        all: repeat split; try (eexists; split; [reflexivity|done]).
        all: try (exists d; split; [done|]; (by left) || (by right)).
        all: right; split; [|right]; eexists; split; done.
      * exists ((u ++ t5 ++ v) ++ (sp9 ++ t9) ++ sp10 ++ t10), u, t5,
          (v ++ (sp9 ++ t9) ++ sp10 ++ t10).
        rewrite <- !app_assoc. done.
    + injection H as <- <-. split.
      * destruct Hc1 as [[ab ->]|[ab ->]].
        all: repeat split; try (eexists; split; [reflexivity|done]).
        all: try (exists d; split; [done|]; (by left) || (by right)).
        all: right; split; [|by left]; eexists; split; done.
      * exists ((u ++ t5 ++ v) ++ sp9 ++ t9), u, t5, (v ++ sp9 ++ t9).
        rewrite <- !app_assoc. done.
  - rewrite rmatch_opt in H.
    destruct (rmatch true (opt_body 10) s1 _ _) as [y|] eqn:E10.
    + exfalso.
      apply rmatch_sound in E10 as (w10 & s3 & c10 & -> & H10 & _).
      apply den_opt_body in H10 as (sp10 & t10 & -> & _ & _ & Hother).
      destruct (rmatch_complete true (opt_body 9) _ s3 _ _
                  (λ s2 c2, rmatch true (Opt (opt_body 10)) s2 c2 accept)
                  (Hother 9) (opt_body_continues 10 _ _)) as [y' Hy'].
      congruence.
    + injection H as <- <-. split.
      * destruct Hc1 as [[ab ->]|[ab ->]].
        all: repeat split; try (eexists; split; [reflexivity|done]).
        all: try (exists d; split; [done|]; (by left) || (by right)).
        all: by left.
      * exists (u ++ t5 ++ v), u, t5, v. done.
Qed.

End PatternMatch.

(** ** The table path *)

Lemma bind_Return {A B} (m : Res A) (f : A → Res B) b :
  m ≫= f = Return b → ∃ a, m = Return a ∧ f a = Return b.
Proof. destruct m as [a|e]; [eauto | done]. Qed.

Lemma getitem_Return {A} (xs : list A) i x : getitem xs i = Return x → xs !! i = Some x.
Proof. unfold getitem. destruct (xs !! i); [congruence | done]. Qed.

Lemma search_digit s :
  is_Some (search false (Cls CDigit) 0 s) ↔ Exists (λ a, isdigit a = true) s.
Proof.
  unfold search, finditer. generalize 0 at 2. induction s as [|a s IH]; intros pos.
  - cbn. split; [by intros [? ?] | by intros ?%Exists_nil].
  - cbn [scan]. unfold match_here. cbn [rmatch cmatch].
    destruct (isdigit a) eqn:Ha.
    + cbn. split; [by left | by eexists].
    + rewrite (IH (S pos)), Exists_cons. split; [by right | intros [?|?]; [congruence|done]].
Qed.

Lemma lower_eq_no_space s k :
  lower s = k → Forall (λ a, isspace a = false) k → strip s = s.
Proof.
  intros <- Hk. apply strip_no_space. unfold lower in Hk.
  apply Forall_map in Hk. eapply Forall_impl; [done|].
  intros a. simpl. by rewrite lower_char_space.
Qed.

Section TableFacts.
Variable parse_date : str → str → Res (option str).
Variable clean_time : str → Res str.

(** The handler turns every exception of the body into a rejection. *)
Lemma parse_single_row_total r month :
  ∃ o, _parse_single_row parse_date clean_time r month = Return o.
Proof.
  unfold _parse_single_row. destruct (_ || _); [by eexists|].
  unfold try_except. destruct (_parse_single_row_try _ _ _ _); by eexists.
Qed.

Lemma parse_single_row_inv r month d :
  _parse_single_row parse_date clean_time r month = Return (Some d) →
  passes_checks parse_date r month (date d)
  ∧ cleaned_from clean_time r d
  ∧ mandatory_present d.
Proof.
  unfold _parse_single_row.
  destruct (bool_decide (r = []) || (length r <? 6)) eqn:G; [done|].
  apply orb_false_iff in G as [_ Hlen%Nat.ltb_ge].
  unfold try_except.
  destruct (_parse_single_row_try _ _ _ _) as [o|e] eqn:T; [|done].
  intros [= ->]. unfold _parse_single_row_try in T.
  apply bind_Return in T as (c0 & H0%getitem_Return & T). cbv beta zeta in T.
  destruct (_ || _) eqn:G1 in T; [done|].
  apply orb_false_iff in G1 as [Htruthy Hin].
  destruct (negb (bool_decide _)) eqn:G2 in T; [done|].
  apply negb_false_iff, bool_decide_eq_true, search_digit in G2.
  destruct c0 as [[|a0 s0]|]; try done. cbn [cell_truthy truthy str_of] in *.
  set (s := a0 :: s0) in *.
  apply bind_Return in T as (parsed & Hdate & T).
  destruct parsed as [[|x dt]|]; try done.
  apply bind_Return in T as (c1 & H1%getitem_Return & T).
  apply bind_Return in T as (v1 & Hv1 & T).
  apply bind_Return in T as (c2 & H2%getitem_Return & T).
  apply bind_Return in T as (v2 & Hv2 & T).
  apply bind_Return in T as (c3 & H3%getitem_Return & T).
  apply bind_Return in T as (v3 & Hv3 & T).
  apply bind_Return in T as (c4 & H4%getitem_Return & T).
  apply bind_Return in T as (v4 & Hv4 & T).
  apply bind_Return in T as (c5 & H5%getitem_Return & T).
  apply bind_Return in T as (v5 & Hv5 & T).
  apply bind_Return in T as (v6 & Hv6 & T). cbv beta zeta in T.
  destruct (forallb _ _) eqn:Hall in T; [|done]. injection T as <-.
  cbn [fajr maghrib isha forallb] in Hall.
  apply andb_true_iff in Hall as [Hf [Hm [Hi _]%andb_true_iff]%andb_true_iff].
  assert (Hne : ∀ v, truthy v = true → v ≠ []) by (by intros [|? ?]).
  destruct (6 <? length r) eqn:G6 in Hv6.
  2:{ injection Hv6 as <-. done. }
  apply bind_Return in Hv6 as (c6 & H6%getitem_Return & Hv6).
  split; [|split].
  - split; [done|]. exists s. split; [done|]. split; [done|].
    cbn [in_list existsb] in Hin.
    apply orb_false_iff in Hin as [Hnone%bool_decide_eq_false
      [Hnull%bool_decide_eq_false _]%orb_false_iff].
    assert (Hlow : ∀ k, Forall (λ a, isspace a = false) k →
              lower (strip s) ≠ k → lower s ≠ k).
    { intros k Hk Hneq Heq. apply Hneq.
      by rewrite (lower_eq_no_space s k Heq Hk). }
    split; [apply Hlow; [by repeat constructor | done]|].
    split; [apply Hlow; [by repeat constructor | done]|].
    split; [|done].
    rewrite Exists_exists in G2 |- *. destruct G2 as (a & Ha & Hd).
    exists a. split; [|done]. by apply strip_subseteq.
  - exists c1, c2, c3, c4, c5, c6. cbn. repeat split; done.
  - repeat split; cbn; auto.
Qed.

(** The loop appends the accepted rows in order. *)
Lemma parse_rows_loop_spec month rows : ∀ acc,
  parse_rows_loop parse_date clean_time rows month acc
  = Return (acc ++ omap (accepted parse_date clean_time month) rows).
Proof.
  induction rows as [|r rows IH]; intros acc; cbn [parse_rows_loop omap list_omap].
  - by rewrite app_nil_r.
  - unfold accepted at 1.
    destruct (parse_single_row_total r month) as [o ->]. cbn.
    destruct o as [d|]; rewrite IH; [|done].
    by rewrite <- app_assoc.
Qed.

Lemma is_header_qualifies r : is_header r = true ↔ qualifies r.
Proof.
  unfold is_header, qualifies.
  rewrite !andb_true_iff, orb_true_iff, negb_true_iff, bool_decide_eq_false,
    Nat.leb_le, !contains_spec.
  split.
  - intros [[_ ?] [? ?]]. done.
  - intros (Hlen & ? & ?). repeat split; try done. intros ->. simpl in Hlen. lia.
Qed.


Lemma find_header_from_first t : ∀ i k,
  first_header t k → _find_header_row_from i t = Some (i + k).
Proof.
  induction t as [|r t IH]; intros i k [(r0 & Hr0 & Hq) Hfirst].
  - done.
  - cbn [_find_header_row_from]. destruct k as [|k].
    + injection Hr0 as ->. apply is_header_qualifies in Hq. rewrite Hq.
      f_equal. lia.
    + destruct (is_header r) eqn:Hr.
      * exfalso. apply (Hfirst 0 r); [lia|done|]. by apply is_header_qualifies.
      * rewrite (IH (S i) k); [f_equal; lia|]. split; [by exists r0|].
        intros j r' Hj Hr'. apply (Hfirst (S j) r'); [lia|done].
Qed.
End TableFacts.

(** ** The text path *)

Section TextFacts.

Lemma int_format_day d :
  day_ok d → ∃ n, int d = Return n ∧ format_02d n = zfill2 d.
Proof.
  intros [Hd Hlen].
  destruct d as [|a [|b [|? ?]]]; simpl in Hlen; try lia.
  - apply Forall_cons in Hd as [Ha%isdigit_enum _].
    unfold lit in Ha. cbn [list_ascii_of_string] in Ha.
    repeat (apply elem_of_cons in Ha as [->|Ha]; [by eexists; vm_compute|]).
    by apply elem_of_nil in Ha.
  - apply Forall_cons in Hd as [Ha%isdigit_enum [Hb%isdigit_enum _]%Forall_cons].
    unfold lit in Ha, Hb. cbn [list_ascii_of_string] in Ha, Hb.
    repeat (apply elem_of_cons in Ha as [->|Ha];
      [repeat (apply elem_of_cons in Hb as [->|Hb]; [by eexists; vm_compute|]);
       by apply elem_of_nil in Hb|]).
    by apply elem_of_nil in Ha.
Qed.

Lemma day_ok_truthy d : day_ok d → truthy d = true.
Proof. intros [_ Hlen]. destruct d; simpl in *; [lia|done]. Qed.

Lemma token_shape_colon t : token_shape t → ":"%char ∈ t.
Proof.
  intros (h & m & sp & a & mm & -> & _). apply elem_of_app. right. left.
Qed.

Lemma token_truthy t : token_shape t → truthy t = true.
Proof. intros Ht%token_shape_colon. destruct t; [by apply elem_of_nil in Ht|done]. Qed.

Lemma token_strip_nonempty t : token_shape t → strip t ≠ [].
Proof.
  intros Ht%token_shape_colon Hnil.
  apply strip_keeps in Ht; [|done]. rewrite Hnil in Ht. by apply elem_of_nil in Ht.
Qed.

Lemma token_colon_ampm t : token_shape t → colon_then_ampm t.
Proof.
  intros (h & m & sp & a & mm & -> & _ & _ & _ & _ & Ha & _).
  exists h, (m ++ sp), a, mm. by rewrite <- app_assoc.
Qed.

Lemma group_Some m n t : m_groups m !! n = Some (Some t) → group m n = t.
Proof. unfold group. by intros ->. Qed.

Lemma group_None m n : m_groups m !! n = Some None → group m n = [].
Proof. unfold group. by intros ->. Qed.

(** Every match found in a text is a match of the pattern at its span:
    well-formed groups, a non-empty span inside the text. *)
Lemma finditer_pattern text m :
  m ∈ finditer true pattern 10 text →
  well_formed_groups (m_groups m)
  ∧ m_start m < m_end m ∧ m_end m ≤ length text
  ∧ match_here true pattern 10 (drop (m_start m) text)
    = Some (drop (m_end m) text, m_groups m).
Proof.
  unfold finditer. intros (s' & Hm & Hend)%scan_match.
  rewrite Nat.sub_0_r in Hm, Hend.
  pose proof (match_here_pattern _ _ _ Hm) as (Hwf & w & u & t & v & Hw & -> & Ht).
  assert (Hpos : 0 < length (u ++ t ++ v)).
  { apply token_truthy in Ht. destruct t; [done|]. rewrite !length_app. simpl. lia. }
  pose proof (f_equal length Hw) as Hlen.
  rewrite length_drop, length_app in Hlen.
  rewrite Hw, length_app, Nat.add_sub in Hend.
  split; [done|]. split; [lia|]. split; [lia|].
  rewrite Hm. do 2 f_equal.
  rewrite Hend, <- drop_drop, Hw. by rewrite drop_app_length.
Qed.

Lemma record_of_match_ok month m :
  well_formed_groups (m_groups m) →
  record_of_match month (map (group m) (seq 1 10)) = Return (record_of_groups month m).
Proof.
  intros ((d & Hd & Hday) & _). cbn [seq map record_of_match].
  assert (str_or (group m 1) (group m 4) = d) as Hor.
  { destruct Hday as [[H1 H4]|[H1 H4]].
    - rewrite (group_Some _ _ _ H1). unfold str_or. by rewrite (day_ok_truthy _ Hd).
    - by rewrite (group_None _ _ H1), (group_Some _ _ _ H4). }
  unfold record_of_groups. rewrite Hor.
  destruct (int_format_day d Hd) as (n & -> & <-). done.
Qed.

Lemma extract_loop_spec month ms : ∀ acc,
  Forall (λ m, well_formed_groups (m_groups m)) ms →
  extract_loop month (map (λ m, map (group m) (seq 1 10)) ms) acc
  = Return (acc ++ map (record_of_groups month) ms).
Proof.
  induction ms as [|m ms IH]; intros acc Hms.
  - cbn. by rewrite app_nil_r.
  - apply Forall_cons in Hms as [Hm Hms].
    cbn [map extract_loop]. rewrite (record_of_match_ok month m Hm).
    cbn [mbind Res_bind]. rewrite IH by done. by rewrite <- app_assoc.
Qed.

(** The extractor returns, with one record per match, in match order. *)
Lemma extract_spec text month :
  extract_from_text_pattern text month
  = Return (map (record_of_groups month) (finditer true pattern 10 text)).
Proof.
  unfold extract_from_text_pattern, findall.
  rewrite extract_loop_spec; [done|].
  apply Forall_forall. intros m Hm. by apply finditer_pattern in Hm as [? _].
Qed.

End TextFacts.

(** ** Texts without AM/PM letters are not matched *)

Section NoLetter.

Lemma plain_char_not_ampm a : plain_char a = true → a ∉ lit "APap".
Proof.
  intros H. apply (bool_decide_eq_false_1 (a ∈ lit "APap")). revert H.
  ascii_cases a; vm_compute; congruence.
Qed.

Lemma colon_lower_fixed s : ":"%char ∈ s → ":"%char ∈ lower s.
Proof. intros H. unfold lower. by apply (list_elem_of_fmap_2 lower_char) in H. Qed.

Lemma colon_not_in_abbrev ab : is_month_abbrev ab → ":"%char ∉ ab.
Proof.
  unfold is_month_abbrev. intros Hab Hin%colon_lower_fixed.
  cbn [map] in Hab.
  repeat (apply elem_of_cons in Hab as [Hab|Hab];
    [rewrite Hab in Hin; revert Hin;
     by apply (bool_decide_eq_false_1 (":"%char ∈ _))|]).
  by apply elem_of_nil in Hab.
Qed.

Lemma colon_not_in_day d : day_ok d → ":"%char ∉ d.
Proof.
  intros [Hd _] Hin. rewrite Forall_forall in Hd. by apply Hd in Hin.
Qed.

Lemma colon_not_in_marker mk : day_marker_text mk → ":"%char ∉ mk.
Proof.
  intros (d & ab & Hd%colon_not_in_day & Hab%colon_not_in_abbrev & [-> | ->]).
  all: rewrite elem_of_app, elem_of_cons; intros [?|[?|?]]; done.
Qed.

Lemma blank_plain w : blank w → Forall (λ a, plain_char a = true) w.
Proof.
  intros [_ Hw]. eapply Forall_impl; [done|]. intros a Ha. unfold plain_char.
  by rewrite Ha.
Qed.

Lemma bare_token_plain t : bare_token t → Forall (λ a, plain_char a = true) t.
Proof.
  assert (Hdig : ∀ l, Forall (λ a, isdigit a = true) l →
                   Forall (λ a, plain_char a = true) l).
  { intros l Hl. eapply Forall_impl; [done|]. intros a Ha. unfold plain_char.
    rewrite Ha. by rewrite orb_true_r. }
  intros (h & m & -> & [Hh _] & Hm & _).
  apply Forall_app. split; [auto|]. apply Forall_cons. split; [done|auto].
Qed.

(** A colon followed by A or P cannot sit in a text whose colons are all
    in a tail of digits, colons and white space. *)
Lemma no_colon_then_ampm M T :
  ":"%char ∉ M → Forall (λ a, plain_char a = true) T → ¬ colon_then_ampm (M ++ T).
Proof.
  intros HM HT (u & v & a & rest & Heq & Ha).
  assert (a ∈ T) as HaT.
  { apply app_eq_inv in Heq as [(k & -> & Hk)|(k & -> & ->)].
    - destruct k as [|x k].
      + simpl in Hk. subst T. right. apply elem_of_app. right. left.
      + injection Hk as <- _. exfalso. apply HM, elem_of_app. right. left.
    - apply elem_of_app. right. right. apply elem_of_app. right. left. }
  rewrite Forall_forall in HT. by apply HT, plain_char_not_ampm in HaT.
Qed.

Lemma suffixless_no_match text i :
  suffixless_text text → match_here true pattern 10 (drop i text) = None.
Proof.
  intros (mk & w1 & t1 & w2 & t2 & w3 & t3 & w4 & t4 & -> & Hmk
          & Hw1%blank_plain & Ht1%bare_token_plain & Hw2%blank_plain & Ht2%bare_token_plain
          & Hw3%blank_plain & Ht3%bare_token_plain & Hw4%blank_plain & Ht4%bare_token_plain).
  apply colon_not_in_marker in Hmk.
  destruct (match_here _ _ _ _) as [[s' c]|] eqn:Hm; [exfalso|done].
  apply match_here_pattern in Hm as (_ & w & u & t & v & Hw & -> & Ht).
  apply token_colon_ampm in Ht as (u' & v' & a & rest & -> & Ha).
  rewrite drop_app in Hw.
  apply (no_colon_then_ampm (drop i mk)
           (drop (i - length mk) (w1 ++ t1 ++ w2 ++ t2 ++ w3 ++ t3 ++ w4 ++ t4))).
  - intros Hin. apply Hmk. revert Hin. apply subseteq_drop.
  - apply Forall_drop. rewrite !Forall_app. tauto.
  - exists (u ++ u'), v', a, (rest ++ v ++ s'). split; [|exact Ha].
    rewrite Hw. repeat (rewrite <- app_assoc || rewrite <- app_comm_cons).
    reflexivity.
Qed.

End NoLetter.

Lemma parse_table_rows_data pd ct t month :
  parse_table_rows pd ct t month = Return (omap (accepted pd ct month) (data_rows t)).
Proof.
  unfold parse_table_rows, data_rows.
  destruct (_ || _); [done|]. destruct (_find_header_row t) as [i|]; [|done].
  rewrite parse_rows_loop_spec. by rewrite Nat.add_1_r.
Qed.

Lemma find_header_from_Some t : ∀ i j,
  _find_header_row_from i t = Some j → ∃ k, j = i + k ∧ first_header t k.
Proof.
  induction t as [|r t IH]; intros i j; cbn [_find_header_row_from]; [done|].
  destruct (is_header r) eqn:Hr.
  - intros [= <-]. exists 0. split; [lia|]. split.
    + exists r. split; [done|]. by apply is_header_qualifies.
    + intros j' r' Hj'. lia.
  - intros (k & -> & [(r0 & Hr0 & Hq) Hfirst])%IH. exists (S k). split; [lia|]. split.
    + by exists r0.
    + intros [|j'] r' Hj' Hr'.
      * injection Hr' as <-. rewrite <- is_header_qualifies. congruence.
      * apply (Hfirst j' r'); [lia|done].
Qed.

Lemma data_rows_first_header t i :
  2 ≤ length t → first_header t i → data_rows t = drop (S i) t.
Proof.
  intros Hlen Hfirst. unfold data_rows, _find_header_row.
  rewrite (find_header_from_first t 0 i Hfirst).
  destruct t as [|r [|r' t]]; simpl in Hlen; try lia. done.
Qed.

Lemma omap_filter_Forall2 {A B} (f : A → option B) (l : list A) :
  Forall2 (λ a b, f a = Some b) (filter (λ a, is_Some (f a)) l) (omap f l).
Proof.
  induction l as [|a l IH]; [constructor|].
  rewrite filter_cons. cbn [omap list_omap].
  destruct (f a) as [b|] eqn:Hfa.
  - rewrite decide_True by (by eexists). by constructor.
  - rewrite decide_False by (by intros [? ?]). done.
Qed.

Lemma accepted_Some pd ct month r d :
  accepted pd ct month r = Some d ↔ _parse_single_row pd ct r month = Return (Some d).
Proof.
  unfold accepted. destruct (parse_single_row_total pd ct r month) as [o ->].
  split; congruence.
Qed.

(** ** Texts of a day marker and four time tokens are matched whole *)

Lemma token_shape_ends t :
  token_shape t →
  ∃ a t' b t'', t = a :: t' ∧ t = t'' ++ [b] ∧ isspace a = false ∧ isspace b = false.
Proof.
  assert (Hap : ∀ x, x ∈ lit "APap" → isspace x = false).
  { intros x Hx. unfold lit in Hx. cbn in Hx.
    repeat (apply elem_of_cons in Hx as [->|Hx]; [done|]). by apply elem_of_nil in Hx. }
  assert (Hm : ∀ x, x ∈ lit "Mm" → isspace x = false).
  { intros x Hx. unfold lit in Hx. cbn in Hx.
    repeat (apply elem_of_cons in Hx as [->|Hx]; [done|]). by apply elem_of_nil in Hx. }
  intros (h & m & sp & a & mm & -> & [Hh Hlen] & _ & _ & _ & Ha & Hmm).
  destruct h as [|d h]; [simpl in Hlen; lia|].
  apply Forall_cons in Hh as [Hd%isdigit_not_space _].
  destruct Hmm as [->|(b & -> & Hb)].
  - exists d, (h ++ ":"%char :: m ++ sp ++ [a]), a, ((d :: h) ++ ":"%char :: m ++ sp).
    split; [done|]. split; [|auto].
    rewrite <- !app_assoc. simpl. by rewrite <- !app_assoc.
  - exists d, (h ++ ":"%char :: m ++ sp ++ [a; b]), b, ((d :: h) ++ ":"%char :: m ++ sp ++ [a]).
    split; [done|]. split; [|auto].
    rewrite <- !app_assoc. simpl. by rewrite <- !app_assoc.
Qed.

Lemma token_strip_id t : token_shape t → strip t = t.
Proof.
  intros (a & t' & b & t'' & Ha & Hb & Hsa & Hsb)%token_shape_ends.
  unfold strip, rstrip.
  assert (lstrip t = t) as -> by (rewrite Ha; simpl; by rewrite Hsa).
  rewrite Hb, reverse_snoc. simpl. rewrite Hsb. by rewrite reverse_cons, reverse_involutive.
Qed.

(** Greedy repetition succeeds with the longest run when the continuation
    accepts what follows it. *)
Lemma rep_greedy {A} icase cl w : ∀ lo hi s' (k : str → option A) x,
  Forall (λ a, cmatch icase cl a = true) w →
  lo ≤ length w → (∀ h, hi = Some h → length w ≤ h) →
  hi = Some (length w) ∨ (∀ b, head s' = Some b → cmatch icase cl b = false) →
  k s' = Some x →
  rep icase cl lo hi (w ++ s') k = Some x.
Proof.
  induction w as [|a w IH]; intros lo hi s' k x Hw Hlo Hhi Hmax Hk.
  - simpl in Hlo. assert (lo = 0) as -> by lia. cbn [app].
    destruct s' as [|b s']; cbn [rep]; [done|].
    destruct Hmax as [->|Hstop]; [done|].
    rewrite (Hstop b eq_refl), andb_false_r. done.
  - apply Forall_cons in Hw as [Ha Hw]. cbn [app rep]. rewrite Ha.
    assert (match hi with Some 0 => false | _ => true end = true) as ->.
    { destruct hi as [[|h]|]; try done. specialize (Hhi 0 eq_refl). simpl in Hhi. lia. }
    cbn [andb]. rewrite (IH (pred lo) (pred <$> hi) s' k x); try done.
    + simpl in Hlo. lia.
    + intros h Hh. destruct hi as [hh|]; [|done]. simpl in Hh.
      specialize (Hhi hh eq_refl). simpl in Hhi. injection Hh as <-. lia.
    + destruct Hmax as [->|Hstop]; [by left | by right].
Qed.

Lemma take_consumed (w s' : str) : take (length (w ++ s') - length s') (w ++ s') = w.
Proof. by rewrite length_app, Nat.add_sub, take_app_length. Qed.

Lemma cmatch_ampm_in a : a ∈ lit "APap" → cmatch true (CSet (lit "APap")) a = true.
Proof.
  intros Ha. unfold lit in Ha. cbn in Ha.
  repeat (apply elem_of_cons in Ha as [->|Ha]; [by vm_compute|]). by apply elem_of_nil in Ha.
Qed.

Lemma cmatch_m_in a : a ∈ lit "Mm" → cmatch true (CSet (lit "Mm")) a = true.
Proof.
  intros Ha. unfold lit in Ha. cbn in Ha.
  repeat (apply elem_of_cons in Ha as [->|Ha]; [by vm_compute|]). by apply elem_of_nil in Ha.
Qed.

Lemma not_space_not_class a :
  isspace a = true →
  isdigit a = false ∧ cmatch true (CSet (lit "Mm")) a = false.
Proof. ascii_cases a; vm_compute; intros; split; congruence. Qed.

Lemma ampm_not_space a : a ∈ lit "APap" → isspace a = false.
Proof.
  intros Ha. unfold lit in Ha. cbn in Ha.
  repeat (apply elem_of_cons in Ha as [->|Ha]; [done|]). by apply elem_of_nil in Ha.
Qed.

(** A time token followed by something that is not the letter M is taken
    whole. *)
Lemma time_token_success {A} t s' c (k : str → caps → option A) x :
  token_shape t →
  (∀ b, head s' = Some b → cmatch true (CSet (lit "Mm")) b = false) →
  k s' c = Some x →
  rmatch true time_token (t ++ s') c k = Some x.
Proof.
  intros (h & m & sp & a & mm & -> & [Hh Hhlen] & Hm & Hmlen & Hsp & Ha & Hmm) Hnext Hk.
  unfold time_token. cbn [rmatch].
  rewrite <- app_assoc.
  apply rep_greedy; [done|lia|intros ? [= <-]; lia| |].
  { destruct Hhlen as [Hl|Hl]; [right|left; by rewrite Hl].
    intros b [= <-]. done. }
  cbn [app]. change (cmatch true (CLit ":") ":") with true. cbn iota.
  rewrite <- app_assoc.
  apply rep_greedy; [done|lia|intros ? [= <-]; lia|left; by rewrite Hmlen|].
  rewrite <- app_assoc.
  apply rep_greedy; [done|lia|done| |].
  { right. intros b [= <-]. cbn [cmatch]. by apply ampm_not_space. }
  cbn [app]. rewrite (cmatch_ampm_in a Ha).
  destruct Hmm as [->|(b & -> & Hb)].
  - cbn [app]. destruct s' as [|b s']; [by rewrite Hk|].
    rewrite (Hnext b eq_refl). by rewrite Hk.
  - cbn [app]. rewrite (cmatch_m_in b Hb). by rewrite Hk.
Qed.

Lemma spaces1_success {A} w s' c (k : str → caps → option A) x :
  blank w →
  (∀ b, head s' = Some b → isspace b = false) →
  k s' c = Some x →
  rmatch true spaces1 (w ++ s') c k = Some x.
Proof.
  intros [Hne Hw] Hnext Hk. unfold spaces1. cbn [rmatch].
  apply rep_greedy; [done| |done|by right|done].
  destruct w; [done|simpl; lia].
Qed.

Lemma month_abbrev_chars ab :
  is_month_abbrev ab →
  ∃ x y z, ab = [x; y; z]
    ∧ [lower_char x; lower_char y; lower_char z]
      ∈ map lit ["jan"; "feb"; "mar"; "apr"; "may"; "jun";
                 "jul"; "aug"; "sep"; "oct"; "nov"; "dec"].
Proof.
  unfold is_month_abbrev. intros H.
  destruct ab as [|x [|y [|z [|? ?]]]];
    try (exfalso; revert H; cbn;
         rewrite !elem_of_cons, elem_of_nil; intros H;
         repeat destruct H as [H|H]; done).
  by exists x, y, z.
Qed.

(** A month abbreviation is taken by the alternative that spells it. *)
Lemma month_abbrev_success {A} ab s' c (k : str → caps → option A) :
  is_month_abbrev ab →
  rmatch true month_abbrev (ab ++ s') c k = k s' c.
Proof.
  intros (x & y & z & -> & H)%month_abbrev_chars. cbn [map] in H.
  repeat (apply elem_of_cons in H as [H|H];
    [ injection H as Hx Hy Hz;
      cbv [month_abbrev lit_re lit list_ascii_of_string fold_left];
      cbn [rmatch cmatch app]; rewrite Hx, Hy, Hz; vm_compute;
      by destruct (k s' c) | ]).
  by apply elem_of_nil in H.
Qed.

Lemma month_abbrev_first_not_digit ab s' :
  is_month_abbrev ab → ∃ x rest, ab ++ s' = x :: rest ∧ isdigit x = false.
Proof.
  assert (Hlow : ∀ a, isdigit (lower_char a) = isdigit a) by (intros a; by ascii_cases a).
  intros (x & y & z & -> & H)%month_abbrev_chars. cbn [map] in H.
  exists x, ([y; z] ++ s'). split; [done|]. rewrite <- Hlow.
  repeat (apply elem_of_cons in H as [H|H]; [injection H as -> _ _; done|]).
  by apply elem_of_nil in H.
Qed.

Lemma rmatch_alt_left {A} icase r1 r2 s c (k : str → caps → option A) x :
  rmatch icase r1 s c k = Some x → rmatch icase (Alt r1 r2) s c k = Some x.
Proof. cbn [rmatch]. by intros ->. Qed.

(** The day marker in its two forms, before white space. *)
Lemma day_marker_success_day_first {A} day ab s' c (k : str → caps → option A) x :
  day_ok day → is_month_abbrev ab →
  k s' (<[2 := Some ab]> (<[1 := Some day]> c)) = Some x →
  rmatch true day_marker ((day ++ "-"%char :: ab) ++ s') c k = Some x.
Proof.
  intros [Hd Hlen] Hab Hk. unfold day_marker. apply rmatch_alt_left.
  unfold day_digits. cbn [rmatch]. rewrite <- app_assoc.
  apply rep_greedy; [done|lia|intros ? [= <-]; lia| |].
  { destruct Hlen as [Hl|Hl]; [right|left; by rewrite Hl]. by intros b [= <-]. }
  cbn [app]. change (cmatch true (CLit "-") "-") with true. cbn iota.
  rewrite month_abbrev_success by done.
  change (day ++ "-"%char :: ab ++ s') with (day ++ ("-"%char :: ab ++ s')).
  by rewrite (take_consumed day), (take_consumed ab).
Qed.

Lemma day_marker_success_month_first {A} day ab s' c (k : str → caps → option A) x :
  day_ok day → is_month_abbrev ab →
  (∀ b, head s' = Some b → isdigit b = false) →
  k s' (<[4 := Some day]> (<[3 := Some ab]> c)) = Some x →
  rmatch true day_marker ((ab ++ "-"%char :: day) ++ s') c k = Some x.
Proof.
  intros [Hd Hlen] Hab Hnext Hk. unfold day_marker. cbn [rmatch].
  destruct (month_abbrev_first_not_digit ab (("-"%char :: day) ++ s') Hab)
    as (a0 & rest & Heq & Ha0).
  rewrite <- app_assoc. unfold day_digits at 1. cbn [rmatch].
  rewrite Heq. cbn [rep]. cbn [cmatch]. rewrite Ha0. cbn [andb Nat.eqb].
  rewrite <- Heq. rewrite month_abbrev_success by done.
  cbn [app]. change (cmatch true (CLit "-") "-") with true. cbn iota.
  unfold day_digits. cbn [rmatch].
  apply rep_greedy; [done|lia|intros ? [= <-]; lia| |].
  { destruct Hlen as [Hl|Hl]; [right|left; by rewrite Hl]. done. }
  change ("-"%char :: day ++ s') with (("-"%char :: day) ++ s').
  rewrite (take_consumed day).
  replace (take (length (ab ++ ("-"%char :: day) ++ s') - length (("-"%char :: day) ++ s'))
             (ab ++ ("-"%char :: day) ++ s')) with ab by (by rewrite take_consumed).
  done.
Qed.

Lemma grp_token_success {A} n t s' c (k : str → caps → option A) x :
  token_shape t →
  (∀ b, head s' = Some b → cmatch true (CSet (lit "Mm")) b = false) →
  k s' (<[n := Some t]> c) = Some x →
  rmatch true (Grp n time_token) (t ++ s') c k = Some x.
Proof.
  intros Ht Hnext Hk. cbn [rmatch]. apply time_token_success; [done|done|].
  by rewrite take_consumed.
Qed.

Lemma opt_token_at_end {A} n c (k : str → caps → option A) :
  rmatch true (opt_token n) [] c k = k [] c.
Proof. reflexivity. Qed.

Lemma head_blank w rest b : blank w → head (w ++ rest) = Some b → isspace b = true.
Proof.
  intros [Hne Hw]. destruct w as [|a w]; [done|]. intros [= <-].
  by apply Forall_cons in Hw as [? _].
Qed.

Lemma head_token t rest b : token_shape t → head (t ++ rest) = Some b → isspace b = false.
Proof.
  intros (a & t' & _ & _ & -> & _ & Ha & _)%token_shape_ends. by intros [= <-].
Qed.

Lemma rmatch_seq {A} icase r1 r2 s c (k : str → caps → option A) :
  rmatch icase (Seq r1 r2) s c k
  = rmatch icase r1 s c (λ s1 c1, rmatch icase r2 s1 c1 k).
Proof. reflexivity. Qed.

(** The four tokens after the day marker, up to the end of the text. *)
Lemma pattern_tail_success w1 t5 w2 t6 w3 t7 w4 t8 (c : caps) :
  blank w1 → token_shape t5 → blank w2 → token_shape t6 →
  blank w3 → token_shape t7 → blank w4 → token_shape t8 →
  rmatch true pattern_tail (w1 ++ t5 ++ w2 ++ t6 ++ w3 ++ t7 ++ w4 ++ t8) c accept
  = Some ([], <[8 := Some t8]> (<[7 := Some t7]> (<[6 := Some t6]>
                (<[5 := Some t5]> c)))).
Proof.
  intros Hw1 Ht5 Hw2 Ht6 Hw3 Ht7 Hw4 Ht8.
  assert (Hsp : ∀ w rest b, blank w → head (w ++ rest) = Some b →
            cmatch true (CSet (lit "Mm")) b = false).
  { intros w rest b Hw Hb. apply not_space_not_class.
    exact (head_blank w rest b Hw Hb). }
  unfold pattern_tail. rewrite rmatch_seq.
  apply (spaces1_success w1); [done | intros b Hb; exact (head_token t5 _ b Ht5 Hb) |].
  rewrite rmatch_seq.
  apply (grp_token_success 5 t5); [done | intros b Hb; exact (Hsp w2 _ b Hw2 Hb) |].
  rewrite rmatch_seq.
  apply (spaces1_success w2); [done | intros b Hb; exact (head_token t6 _ b Ht6 Hb) |].
  rewrite rmatch_seq.
  apply (grp_token_success 6 t6); [done | intros b Hb; exact (Hsp w3 _ b Hw3 Hb) |].
  rewrite rmatch_seq.
  apply (spaces1_success w3); [done | intros b Hb; exact (head_token t7 _ b Ht7 Hb) |].
  rewrite rmatch_seq.
  apply (grp_token_success 7 t7); [done | intros b Hb; exact (Hsp w4 _ b Hw4 Hb) |].
  rewrite rmatch_seq.
  apply (spaces1_success w4).
  { done. }
  { intros b Hb. apply (head_token t8 [] b Ht8). by rewrite app_nil_r. }
  rewrite rmatch_seq.
  rewrite <- (app_nil_r t8) at 1.
  apply (grp_token_success 8 t8 []); [done | done |].
  by rewrite rmatch_seq, !opt_token_at_end.
Qed.

(** A text of a day marker and four time tokens is matched whole, with the
    day and the tokens in their groups and nothing in groups 9 and 10. *)
Lemma lettered_text_match text day t5 t6 t7 t8 month :
  lettered_text text day t5 t6 t7 t8 →
  ∃ c, match_here true pattern 10 text = Some ([], c)
     ∧ record_of_groups month (MkMatch 0 (length text) c)
       = MkRecord (month ++ lit "-" ++ zfill2 day) t5 t6 t7 t8 [] [].
Proof.
  intros (ab & w1 & w2 & w3 & w4 & Hday & Hab & Htext
          & Hw1 & Ht5 & Hw2 & Ht6 & Hw3 & Ht7 & Hw4 & Ht8).
  pose proof (token_strip_id t5 Ht5) as S5. pose proof (token_strip_id t6 Ht6) as S6.
  pose proof (token_strip_id t7 Ht7) as S7. pose proof (token_strip_id t8 Ht8) as S8.
  pose proof (day_ok_truthy day Hday) as Hdt.
  pose proof (token_truthy t5 Ht5) as T5.
  assert (Hrec : ∀ c : caps,
            c !! 5 = Some (Some t5) → c !! 6 = Some (Some t6) →
            c !! 7 = Some (Some t7) → c !! 8 = Some (Some t8) →
            c !! 9 = Some None → c !! 10 = Some None →
            (c !! 1 = Some (Some day) ∧ c !! 4 = Some None)
            ∨ (c !! 1 = Some None ∧ c !! 4 = Some (Some day)) →
            record_of_groups month (MkMatch 0 (length text) c)
            = MkRecord (month ++ lit "-" ++ zfill2 day) t5 t6 t7 t8 [] []).
  { intros c H5 H6 H7 H8 H9 H10 H14. unfold record_of_groups.
    rewrite (group_Some _ 5 t5), (group_Some _ 6 t6), (group_Some _ 7 t7),
      (group_Some _ 8 t8), (group_None _ 9), (group_None _ 10) by done.
    rewrite S5, S6, S7, S8. cbn [truthy].
    destruct H14 as [[H1 H4]|[H1 H4]].
    - rewrite (group_Some _ 1 day), (group_None _ 4) by done.
      unfold str_or. by rewrite Hdt.
    - by rewrite (group_None _ 1), (group_Some _ 4 day) by done. }
  assert (Hnext : ∀ b, head (w1 ++ t5 ++ w2 ++ t6 ++ w3 ++ t7 ++ w4 ++ t8) = Some b →
            isdigit b = false).
  { intros b Hb. apply not_space_not_class. exact (head_blank w1 _ b Hw1 Hb). }
  unfold match_here. change pattern with (Seq day_marker pattern_tail).
  rewrite rmatch_seq.
  destruct Htext as [-> | ->]; eexists; (split; [|apply Hrec]).
  - apply (day_marker_success_day_first day ab _ _ _ _ Hday Hab).
    by apply pattern_tail_success.
  - reflexivity.
  - reflexivity.
  - reflexivity.
  - reflexivity.
  - reflexivity.
  - reflexivity.
  - left. split; reflexivity.
  - apply (day_marker_success_month_first day ab _ _ _ _ Hday Hab Hnext).
    by apply pattern_tail_success.
  - reflexivity.
  - reflexivity.
  - reflexivity.
  - reflexivity.
  - reflexivity.
  - reflexivity.
  - right. split; reflexivity.
Qed.

Lemma scan_skip_all s : ∀ pos skip,
  length s ≤ skip → scan true pattern 10 pos skip s = [].
Proof.
  induction s as [|a s IH]; intros pos skip Hlen; destruct skip as [|n]; cbn [scan].
  - reflexivity.
  - done.
  - simpl in Hlen. lia.
  - apply IH. simpl in Hlen. lia.
Qed.

(** Such a text gives exactly one record: the day and the four tokens. *)
Lemma lettered_text_extract text day t5 t6 t7 t8 month :
  lettered_text text day t5 t6 t7 t8 →
  extract_from_text_pattern text month
  = Return [MkRecord (month ++ lit "-" ++ zfill2 day) t5 t6 t7 t8 [] []].
Proof.
  intros (c & Hm & Hrec)%(lettered_text_match _ _ _ _ _ _ month).
  rewrite extract_spec. f_equal. unfold finditer.
  destruct text as [|a text].
  - vm_compute in Hm. discriminate.
  - cbn [scan]. rewrite Hm. cbn [length]. rewrite Nat.sub_0_r. cbn [pred].
    rewrite scan_skip_all by done. cbn [map]. rewrite <- Hrec.
    cbn [length]. by rewrite Nat.add_0_l.
Qed.

(** * The claims *)

(** C1: every record that [parse_table_rows] returns has non-empty fajr,
    maghrib and isha.  [_parse_single_row] answers either absent or a record
    whose time fields are the cleaner's answers and whose three mandatory
    fields are non-empty; it never raises. *)
Theorem C1_mandatory_fields_present pd ct (t : table) (month : str) :
  (∀ r, _parse_single_row pd ct r month = Return None
        ∨ ∃ d, _parse_single_row pd ct r month = Return (Some d)
             ∧ cleaned_from ct r d ∧ mandatory_present d)
  ∧ ∃ recs, parse_table_rows pd ct t month = Return recs
          ∧ Forall mandatory_present recs.
Proof.
  split.
  - intros r. destruct (parse_single_row_total pd ct r month) as [[d|] Hr]; [|by left].
    right. exists d. split; [done|]. by apply parse_single_row_inv in Hr as (_ & ? & ?).
  - exists (omap (accepted pd ct month) (data_rows t)).
    split; [apply parse_table_rows_data|].
    apply Forall_forall. intros d (r & _ & Hr%accepted_Some)%list_elem_of_omap.
    by apply parse_single_row_inv in Hr as (_ & _ & ?).
Qed.


(** C3, refuted as stated: a text made of a day marker and four time tokens
    without any AM/PM letter yields no record; this holds for the text
    [text_bare_tokens] and for every text of that form. *)
Lemma C3_bare_tokens_yield_nothing :
  suffixless_text text_bare_tokens
  ∧ extract_from_text_pattern text_bare_tokens (lit "03") = Return []
  ∧ ¬ ∃ text month d recs,
        suffixless_text text
        ∧ extract_from_text_pattern text month = Return (d :: recs).
Proof.
  split; [|split].
  - exists (lit "3-Mar"), (lit " "), (lit "5:00"), (lit " "), (lit "6:15"),
      (lit " "), (lit "12:30"), (lit " "), (lit "3:45").
    split; [reflexivity|]. split.
    { exists (lit "3"), (lit "Mar"). split; [|split].
      - split; [by repeat constructor | by left].
      - unfold is_month_abbrev. vm_compute. solve_elem.
      - by left. }
    assert (Hblank : blank (lit " ")) by (split; [done | by repeat constructor]).
    assert (Htok : ∀ h m, day_ok (lit h) → Forall (λ a, isdigit a = true) (lit m) →
              length (lit m) = 2 → bare_token (lit h ++ ":"%char :: lit m)).
    { intros h m ? ? ?. by exists (lit h), (lit m). }
    assert (H1 : day_ok (lit "5") ∧ day_ok (lit "6") ∧ day_ok (lit "12") ∧ day_ok (lit "3")).
    { repeat split; try (by repeat constructor); (by left) || (by right). }
    destruct H1 as (? & ? & ? & ?).
    split; [exact Hblank|].
    split; [apply (Htok "5" "00"); [done | by repeat constructor | done]|].
    split; [exact Hblank|].
    split; [apply (Htok "6" "15"); [done | by repeat constructor | done]|].
    split; [exact Hblank|].
    split; [apply (Htok "12" "30"); [done | by repeat constructor | done]|].
    split; [exact Hblank|].
    apply (Htok "3" "45"); [done | by repeat constructor | done].
  - vm_compute. reflexivity.
  - intros (text & month & d & recs & Hshape & Hout).
    rewrite extract_spec in Hout. injection Hout as Hout.
    unfold finditer in Hout. rewrite scan_nil in Hout; [done|].
    intros i. by apply suffixless_no_match.
Qed.

(** C3, amended: a time token is H:MM or HH:MM followed by optional white
    space, a required letter A or P and an optional letter M, in either
    case.  Every match holds four such tokens in groups 5 to 8; a text of a
    day marker and four such tokens, with or without the M, yields exactly
    one record, with these tokens as fajr, sunrise, dhuhr and asr; a text of
    a day marker and four tokens without that letter yields no record. *)
Theorem C3_time_tokens_need_letter (text month : str) :
  (∀ m, m ∈ finditer true pattern 10 text →
     token_group (m_groups m) 5 ∧ token_group (m_groups m) 6
     ∧ token_group (m_groups m) 7 ∧ token_group (m_groups m) 8)
  ∧ (suffixless_text text → extract_from_text_pattern text month = Return [])
  ∧ (∃ d, extract_from_text_pattern text_single_letter month = Return [d]
        ∧ fajr d = lit "5:00A" ∧ asr d = lit "3:45 p")
  ∧ ∀ day t5 t6 t7 t8,
      lettered_text text day t5 t6 t7 t8 →
      extract_from_text_pattern text month
      = Return [MkRecord (month ++ lit "-" ++ zfill2 day) t5 t6 t7 t8 [] []].
Proof.
  split; [|split; [|split]].
  - intros m ((_ & ? & ? & ? & ? & _) & _)%finditer_pattern. done.
  - intros Hshape. rewrite extract_spec. unfold finditer.
    rewrite scan_nil; [done|]. intros i. by apply suffixless_no_match.
  - rewrite extract_spec.
    eexists. split; [vm_compute; reflexivity|]. split; reflexivity.
  - intros day t5 t6 t7 t8. apply lettered_text_extract.
Qed.

(** C3 on the text of the fifth scenario, whose four tokens carry the full
    AM or PM: they are accepted as they stand. *)
Lemma C3_time_tokens_need_letter_witness :
  lettered_text text_four_tokens (lit "4")
    (lit "5:00AM") (lit "6:15AM") (lit "12:30PM") (lit "3:45PM")
  ∧ extract_from_text_pattern text_four_tokens (lit "03")
    = Return [MkRecord (lit "03-04") (lit "5:00AM") (lit "6:15AM")
                (lit "12:30PM") (lit "3:45PM") [] []].
Proof.
  assert (Hblank : blank (lit " ")) by (split; [done | by repeat constructor]).
  assert (Htok : ∀ h m a, day_ok (lit h) → Forall (λ a, isdigit a = true) (lit m) →
            length (lit m) = 2 → a ∈ lit "APap" →
            token_shape (lit h ++ ":"%char :: lit m ++ [] ++ a :: lit "M")).
  { intros h m a ? ? ? ?. exists (lit h), (lit m), [], a, (lit "M").
    do 5 (split; [done|]). split; [done|]. right. exists "M"%char.
    split; [done|]. vm_compute. solve_elem. }
  assert (H1 : day_ok (lit "4") ∧ day_ok (lit "5") ∧ day_ok (lit "6")
               ∧ day_ok (lit "12") ∧ day_ok (lit "3")).
  { repeat split; try (by repeat constructor); (by left) || (by right). }
  destruct H1 as (? & ? & ? & ? & ?).
  assert (HA : "A"%char ∈ lit "APap") by (vm_compute; solve_elem).
  assert (HP : "P"%char ∈ lit "APap") by (vm_compute; solve_elem).
  assert (Hshape : lettered_text text_four_tokens (lit "4")
            (lit "5:00AM") (lit "6:15AM") (lit "12:30PM") (lit "3:45PM")).
  { exists (lit "Mar"), (lit " "), (lit " "), (lit " "), (lit " ").
    split; [done|]. split; [unfold is_month_abbrev; vm_compute; solve_elem|].
    split; [right; reflexivity|].
    split; [exact Hblank|].
    split; [apply (Htok "5" "00" "A"%char); [done | by repeat constructor | done | done]|].
    split; [exact Hblank|].
    split; [apply (Htok "6" "15" "A"%char); [done | by repeat constructor | done | done]|].
    split; [exact Hblank|].
    split; [apply (Htok "12" "30" "P"%char); [done | by repeat constructor | done | done]|].
    split; [exact Hblank|].
    apply (Htok "3" "45" "P"%char); [done | by repeat constructor | done | done]. }
  split; [exact Hshape|].
  destruct (C3_time_tokens_need_letter text_four_tokens (lit "03")) as (_ & _ & _ & Hacc).
  rewrite (Hacc _ _ _ _ _ Hshape). vm_compute. reflexivity.
Defined.

(** C4, refuted as stated: on the text of the fourth scenario the fallback
    extractor emits the raw token 5:00AM and the date 03-03, although the
    time cleaner at hand answers the empty string for every token and the
    date resolver at hand resolves nothing. *)
Lemma C4_text_path_bypasses_helpers :
  ∃ d, extract_from_text_pattern text_six_tokens (lit "03") = Return [d]
     ∧ fajr d = lit "5:00AM" ∧ date d = lit "03-03"
     ∧ (∀ tok, blank_clean_time tok ≠ Return (fajr d))
     ∧ (∀ tok mo, failing_parse_date tok mo ≠ Return (Some (date d))).
Proof.
  eexists. split; [vm_compute; reflexivity|].
  split; [reflexivity|]. split; [reflexivity|]. split; intros; discriminate.
Qed.

(** C4, amended: the normalization helpers serve the table extractor only.
    A record of [_parse_single_row] has the date resolver's answer as date
    and the time cleaner's answers as time fields; a record of
    [extract_from_text_pattern] has the white-space-stripped raw tokens as
    time fields and the locally formatted month and day as date. *)
Theorem C4_helpers_serve_table_path_only pd ct (text month : str) :
  (∀ r d, _parse_single_row pd ct r month = Return (Some d) →
     cleaned_from ct r d ∧ ∃ tok, pd tok month = Return (Some (date d)))
  ∧ extract_from_text_pattern text month
    = Return (map (record_of_groups month) (finditer true pattern 10 text))
  ∧ Forall (λ m, ∃ day, day_ok day
               ∧ date (record_of_groups month m) = month ++ lit "-" ++ zfill2 day
               ∧ token_shape (group m 5) ∧ token_shape (group m 6)
               ∧ token_shape (group m 7) ∧ token_shape (group m 8)
               ∧ raw_fields m (record_of_groups month m))
      (finditer true pattern 10 text).
Proof.
  split; [|split].
  - intros r d ((_ & s & _ & _ & _ & _ & _ & Hd & _) & Hclean & _)%parse_single_row_inv.
    split; [done|]. by exists (strip s).
  - apply extract_spec.
  - apply Forall_forall.
    intros m (((day & Hday & Hgr) & (t5 & H5 & Ht5) & (t6 & H6 & Ht6)
               & (t7 & H7 & Ht7) & (t8 & H8 & Ht8) & _) & _)%finditer_pattern.
    exists day. split; [done|]. split.
    { cbn [record_of_groups date]. do 3 f_equal.
      destruct Hgr as [[H1 H4]|[H1 H4]].
      - rewrite (group_Some _ _ _ H1). unfold str_or. by rewrite (day_ok_truthy _ Hday).
      - by rewrite (group_None _ _ H1), (group_Some _ _ _ H4). }
    rewrite (group_Some _ _ _ H5), (group_Some _ _ _ H6),
      (group_Some _ _ _ H7), (group_Some _ _ _ H8).
    do 4 (split; [done|]).
    unfold raw_fields, record_of_groups. cbn [fajr sunrise dhuhr asr maghrib isha].
    rewrite (group_Some _ _ _ H5), (group_Some _ _ _ H6),
      (group_Some _ _ _ H7), (group_Some _ _ _ H8).
    do 4 (split; [done|]).
    split; by destruct (group m _).
Qed.

(** C5: fault isolation in the table path.  [_parse_single_row] turns any
    exception of its body into a rejection and never raises, so
    [parse_table_rows] never raises either; a data row whose parsing raises
    contributes nothing, and the rows before and after it are parsed as if
    it were not there. *)
Theorem C5_fault_isolation pd ct (hd : table) (header : row) (pre : list row)
    (bad : row) (post : list row) (month : str) (e : Exception) :
  first_header (hd ++ header :: pre ++ bad :: post) (length hd) →
  _parse_single_row_try pd ct bad month = Raise e →
  (∀ r, ∃ o, _parse_single_row pd ct r month = Return o)
  ∧ (∀ t, ∃ recs, parse_table_rows pd ct t month = Return recs)
  ∧ _parse_single_row pd ct bad month = Return None
  ∧ parse_table_rows pd ct (hd ++ header :: pre ++ bad :: post) month
    = Return (omap (accepted pd ct month) pre ++ omap (accepted pd ct month) post).
Proof.
  intros Hfirst Hraise.
  assert (Hbad : _parse_single_row pd ct bad month = Return None).
  { unfold _parse_single_row. destruct (_ || _); [done|]. by rewrite Hraise. }
  split; [intros r; apply parse_single_row_total|].
  split; [intros t; eexists; apply parse_table_rows_data|].
  split; [done|].
  rewrite parse_table_rows_data, (data_rows_first_header _ (length hd)); [|..|done].
  - rewrite (cons_middle header hd), app_assoc.
    rewrite drop_app_length' by (rewrite length_app; simpl; lia).
    rewrite omap_app. cbn [omap list_omap]. unfold accepted at 2. by rewrite Hbad.
  - rewrite length_app. cbn [length]. rewrite length_app. cbn [length]. lia.
Qed.

(** C5 at work: in [sample_table] the row dated 3rd makes the date resolver
    raise; the rows of day 1 before it and of day 4 after it still give their
    records. *)
Lemma C5_fault_isolation_witness :
  first_header sample_table 1
  ∧ _parse_single_row_try stub_parse_date stub_clean_time bad_date_cells (lit "03")
    = Raise ValueError
  ∧ ∃ d1 d4,
      parse_table_rows stub_parse_date stub_clean_time sample_table (lit "03")
      = Return [d1; d4]
      ∧ date d1 = lit "03-01" ∧ date d4 = lit "03-04".
Proof.
  assert (Hfirst : first_header
            ([title_cells] ++ header_cells :: [day1_cells; day2_cells]
               ++ bad_date_cells :: [day4_cells]) (length [title_cells])).
  { split.
    - exists header_cells. split; [reflexivity|].
      apply is_header_qualifies. vm_compute. reflexivity.
    - intros j r Hj Hr. destruct j as [|j]; [|simpl in Hj; lia].
      injection Hr as <-. intros [Hlen _]. vm_compute in Hlen. lia. }
  assert (Hraise : _parse_single_row_try stub_parse_date stub_clean_time
            bad_date_cells (lit "03") = Raise ValueError) by (vm_compute; reflexivity).
  split; [exact Hfirst|]. split; [exact Hraise|].
  destruct (C5_fault_isolation stub_parse_date stub_clean_time
              [title_cells] header_cells [day1_cells; day2_cells]
              bad_date_cells [day4_cells] (lit "03") ValueError Hfirst Hraise)
    as (_ & _ & _ & Hrows).
  eexists _, _. split; [exact Hrows|]. split; reflexivity.
Defined.

(** C6: [_parse_single_row] answers absent for an empty row, a row of fewer
    than six cells, and a row whose first cell is empty, reads none or null
    in any case, holds no digit, or is turned down by the date resolver; a
    row that yields a record passes all these checks. *)
Theorem C6_early_rejections pd ct (r : row) (month : str) :
  (rejected_early pd r month → _parse_single_row pd ct r month = Return None)
  ∧ (∀ d, _parse_single_row pd ct r month = Return (Some d) →
       passes_checks pd r month (date d)).
Proof.
  assert (Hpass : ∀ d, _parse_single_row pd ct r month = Return (Some d) →
                    passes_checks pd r month (date d)).
  { intros d Hd. by apply parse_single_row_inv in Hd as (? & _). }
  split; [|done].
  intros Hrej. destruct (parse_single_row_total pd ct r month) as [[d|] Hr]; [|done].
  exfalso. apply Hpass in Hr as (Hlen & s & H0 & Hne & Hnone & Hnull & Hdig & Hdate & Hdt).
  destruct Hrej as [->|[?|(c & Hc & Hrej)]]; [done|lia|].
  rewrite H0 in Hc. injection Hc as <-.
  destruct Hrej as [?|[[= ->]|(s' & [= <-] & Hrej)]]; [done|done|].
  destruct Hrej as [?|[?|[Hnodigit|Hres]]]; [done|done|..].
  - apply Exists_exists in Hdig as (a & Ha & Hd).
    rewrite Forall_forall in Hnodigit. specialize (Hnodigit a Ha). congruence.
  - destruct Hres as [Hres|[Hres|[e Hres]]]; rewrite Hdate in Hres; [done| |done].
    injection Hres as Hres. done.
Qed.

(** C7: for each match the emitted date is the supplied month, a hyphen and
    the day padded to two digits, the day being the one day group (1 or 4)
    that is set; the captured month abbreviation plays no part, so the text
    of the fourth scenario (3-Mar) read with month 11 is dated 11-03. *)
Theorem C7_date_from_month_and_day (text month : str) :
  ∃ recs,
    extract_from_text_pattern text month = Return recs
    ∧ Forall2 (λ m d, ∃ day n, day_ok day
                 ∧ ((m_groups m !! 1 = Some (Some day) ∧ m_groups m !! 4 = Some None)
                    ∨ (m_groups m !! 1 = Some None ∧ m_groups m !! 4 = Some (Some day)))
                 ∧ int day = Return n
                 ∧ format_02d n = zfill2 day
                 ∧ date d = month ++ lit "-" ++ format_02d n)
        (finditer true pattern 10 text) recs
    ∧ ∃ d, extract_from_text_pattern text_six_tokens (lit "11") = Return [d]
         ∧ date d = lit "11-03".
Proof.
  exists (map (record_of_groups month) (finditer true pattern 10 text)).
  split; [apply extract_spec|]. split.
  - apply Forall2_fmap_r, Forall_Forall2_diag, Forall_forall.
    intros m (((day & Hday & Hgr) & _) & _)%finditer_pattern.
    destruct (int_format_day day Hday) as (n & Hn & Hfmt).
    exists day, n. split; [done|]. split; [done|]. split; [done|]. split; [done|].
    cbn [record_of_groups date]. rewrite Hfmt. do 3 f_equal.
    destruct Hgr as [[H1 H4]|[H1 H4]].
    + rewrite (group_Some _ _ _ H1). unfold str_or. by rewrite (day_ok_truthy _ Hday).
    + by rewrite (group_None _ _ H1), (group_Some _ _ _ H4).
  - eexists. split; [vm_compute; reflexivity | reflexivity].
Qed.

(** C8: the fallback extractor emits exactly one record per match and
    filters nothing: a maghrib or isha group that is not captured gives the
    empty string, and the record is emitted all the same, as for the text of
    the fifth scenario; the table path rejects such a row. *)
Theorem C8_one_record_per_match (text month : str) :
  ∃ recs,
    extract_from_text_pattern text month = Return recs
    ∧ length recs = length (finditer true pattern 10 text)
    ∧ Forall2 (λ m d,
                 fajr d = strip (group m 5) ∧ sunrise d = strip (group m 6)
                 ∧ dhuhr d = strip (group m 7) ∧ asr d = strip (group m 8)
                 ∧ (m_groups m !! 9 = Some None → maghrib d = [])
                 ∧ (m_groups m !! 10 = Some None → isha d = [])
                 ∧ (∀ t, m_groups m !! 9 = Some (Some t) → maghrib d = strip t)
                 ∧ (∀ t, m_groups m !! 10 = Some (Some t) → isha d = strip t))
        (finditer true pattern 10 text) recs
    ∧ (∃ d, extract_from_text_pattern text_four_tokens (lit "03") = Return [d]
          ∧ date d = lit "03-04" ∧ maghrib d = [] ∧ isha d = [])
    ∧ _parse_single_row stub_parse_date stub_clean_time day2_cells (lit "03")
      = Return None.
Proof.
  exists (map (record_of_groups month) (finditer true pattern 10 text)).
  split; [apply extract_spec|]. split; [apply length_map|]. split; [|split].
  - apply Forall2_fmap_r, Forall_Forall2_diag, Forall_forall.
    intros m ((_ & _ & _ & _ & _ & Htail) & _)%finditer_pattern.
    unfold record_of_groups. cbn [fajr sunrise dhuhr asr maghrib isha].
    do 4 (split; [reflexivity|]).
    split; [intros H; by rewrite (group_None _ _ H)|].
    split; [intros H; by rewrite (group_None _ _ H)|].
    split; intros t H; rewrite (group_Some _ _ _ H); by destruct t.
  - eexists. split; [vm_compute; reflexivity|]. repeat split; reflexivity.
  - vm_compute. reflexivity.
Qed.

(** C9: order preservation.  The records of [parse_table_rows] are, in
    order, those of the accepted data rows, a subsequence of the rows after
    the header; the records of [extract_from_text_pattern] are those of the
    matches, which come left to right without overlap and miss no position
    where the pattern matches outside an earlier match.  Nothing is sorted
    or merged: [text_two_days] gives day 9 before day 2, and day 2 twice. *)
Theorem C9_order_preserved pd ct (t : table) (text month : str) :
  (∃ kept recs,
     parse_table_rows pd ct t month = Return recs
     ∧ kept = filter (λ r, is_Some (accepted pd ct month r)) (data_rows t)
     ∧ kept `sublist_of` data_rows t
     ∧ Forall2 (λ r d, _parse_single_row pd ct r month = Return (Some d)) kept recs)
  ∧ (∃ ms,
       ms = finditer true pattern 10 text
       ∧ extract_from_text_pattern text month = Return (map (record_of_groups month) ms)
       ∧ StronglySorted (λ m1 m2, m_end m1 ≤ m_start m2) ms
       ∧ Forall (λ m, m_start m < m_end m ∧ m_end m ≤ length text
                      ∧ match_here true pattern 10 (drop (m_start m) text)
                        = Some (drop (m_end m) text, m_groups m)) ms
       ∧ ∀ i, i ≤ length text →
           is_Some (match_here true pattern 10 (drop i text)) →
           ∃ m, m ∈ ms ∧ m_start m ≤ i ∧ i < m_end m)
  ∧ (∃ recs, extract_from_text_pattern text_two_days (lit "03") = Return recs
           ∧ map date recs = [lit "03-09"; lit "03-02"; lit "03-02"]).
Proof.
  split; [|split].
  - eexists _, _. split; [apply parse_table_rows_data|]. split; [reflexivity|].
    split; [apply sublist_filter|].
    eapply Forall2_impl; [apply omap_filter_Forall2|].
    intros r d. apply accepted_Some.
  - eexists. split; [reflexivity|]. split; [apply extract_spec|].
    split; [apply scan_sorted|]. split.
    + apply Forall_forall. intros m (_ & ? & ? & ?)%finditer_pattern. done.
    + intros i Hi Hm.
      destruct (scan_complete true pattern 10 text 0 0 i) as (m & Hin & Hpos);
        [lia | done | done |].
      exists m. split; [done|].
      apply finditer_pattern in Hin as (_ & ? & _). lia.
  - eexists. split; [vm_compute; reflexivity | reflexivity].
Qed.

(** C10: in every record of [extract_from_text_pattern] a non-empty isha
    comes with a non-empty maghrib: group 10 is set only together with
    group 9, and a single trailing token is always the maghrib one, as in
    [text_five_tokens]. *)
Theorem C10_isha_implies_maghrib (text month : str) :
  ∃ recs,
    extract_from_text_pattern text month = Return recs
    ∧ Forall (λ d, isha d ≠ [] → maghrib d ≠ []) recs
    ∧ Forall (λ m, (∃ t, m_groups m !! 10 = Some (Some t)) →
                   ∃ t, m_groups m !! 9 = Some (Some t))
        (finditer true pattern 10 text)
    ∧ (∃ d, extract_from_text_pattern text_five_tokens (lit "03") = Return [d]
          ∧ maghrib d = lit "6:30PM" ∧ isha d = [])
    ∧ ∃ d, extract_from_text_pattern text_six_tokens (lit "03") = Return [d]
         ∧ maghrib d = lit "6:30PM" ∧ isha d = lit "7:45PM".
Proof.
  exists (map (record_of_groups month) (finditer true pattern 10 text)).
  split; [apply extract_spec|]. split; [|split].
  - apply Forall_fmap, Forall_forall.
    intros m ((_ & _ & _ & _ & _ & Htail) & _)%finditer_pattern.
    unfold record_of_groups. cbn [maghrib isha compose].
    destruct Htail as [[_ H10]|[(t9 & H9 & Ht9) _]].
    + rewrite (group_None _ _ H10). done.
    + intros _. rewrite (group_Some _ _ _ H9), (token_truthy _ Ht9).
      by apply token_strip_nonempty.
  - apply Forall_forall.
    intros m ((_ & _ & _ & _ & _ & Htail) & _)%finditer_pattern [t10 H10].
    destruct Htail as [[_ H10']|[(t9 & H9 & _) _]]; [congruence|by exists t9].
  - split; eexists; (split; [vm_compute; reflexivity|]); split; reflexivity.
Qed.

(** * The table claims on [sample_table] *)

(** C1 on [sample_table]: the two records returned have their mandatory
    fields, and the row of day 2, whose maghrib and isha are empty, is
    absent. *)
Lemma C1_mandatory_fields_present_witness :
  ∃ d1 d4,
    parse_table_rows stub_parse_date stub_clean_time sample_table (lit "03")
    = Return [d1; d4]
    ∧ mandatory_present d1 ∧ mandatory_present d4
    ∧ _parse_single_row stub_parse_date stub_clean_time day2_cells (lit "03")
      = Return None.
Proof.
  destruct (C1_mandatory_fields_present stub_parse_date stub_clean_time
              sample_table (lit "03")) as [Hrow (recs & Hrecs & Hall)].
  assert (Hrun : parse_table_rows stub_parse_date stub_clean_time sample_table (lit "03")
                 = Return [accepted_day1; accepted_day4]) by (vm_compute; reflexivity).
  rewrite Hrun in Hrecs. injection Hrecs as <-.
  apply Forall_cons in Hall as [H1 [H4 _]%Forall_cons].
  exists accepted_day1, accepted_day4.
  split; [exact Hrun|]. split; [exact H1|]. split; [exact H4|].
  vm_compute. reflexivity.
Defined.


(** C6 on concrete rows: a date cell reading None and a date cell without a
    digit are turned down; the row of day 1 passes every check. *)
Lemma C6_early_rejections_witness :
  rejected_early stub_parse_date none_date_cells (lit "03")
  ∧ _parse_single_row stub_parse_date stub_clean_time none_date_cells (lit "03")
    = Return None
  ∧ rejected_early stub_parse_date weekday_cells (lit "03")
  ∧ _parse_single_row stub_parse_date stub_clean_time weekday_cells (lit "03")
    = Return None
  ∧ passes_checks stub_parse_date day1_cells (lit "03") (lit "03-01").
Proof.
  assert (Hnone : rejected_early stub_parse_date none_date_cells (lit "03")).
  { right. right. exists (Some (lit "None")). split; [reflexivity|].
    right. right. exists (lit "None"). split; [reflexivity|]. by left. }
  assert (Hweek : rejected_early stub_parse_date weekday_cells (lit "03")).
  { right. right. exists (Some (lit "Mon")). split; [reflexivity|].
    right. right. exists (lit "Mon"). split; [reflexivity|].
    right. right. left. by repeat constructor. }
  split; [exact Hnone|].
  split; [exact (proj1 (C6_early_rejections stub_parse_date stub_clean_time
                          none_date_cells (lit "03")) Hnone)|].
  split; [exact Hweek|].
  split; [exact (proj1 (C6_early_rejections stub_parse_date stub_clean_time
                          weekday_cells (lit "03")) Hweek)|].
  apply (proj2 (C6_early_rejections stub_parse_date stub_clean_time
                  day1_cells (lit "03")) accepted_day1).
  vm_compute. reflexivity.
Defined.

(** * Further properties of the table path *)

Lemma date_str_text (c : cell) :
  (if cell_truthy c then strip (str_of c) else []) = strip (str_or_empty c).
Proof. by destruct c as [[|a s]|]. Qed.

Lemma getitem_lookup {A} (xs : list A) i x : xs !! i = Some x → getitem xs i = Return x.
Proof. unfold getitem. by intros ->. Qed.

(** The single-row parser reads a row through its length up to seven, the
    stripped text of its first cell and the texts of cells 1 to 6. *)
Lemma parse_single_row_ext pd ct (r r' : list cell) (month : str) :
  Nat.min 7 (length r) = Nat.min 7 (length r') →
  (λ c, strip (str_or_empty c)) <$> r !! 0 = (λ c, strip (str_or_empty c)) <$> r' !! 0 →
  (∀ i, 1 ≤ i → i ≤ 6 → str_or_empty <$> r !! i = str_or_empty <$> r' !! i) →
  _parse_single_row pd ct r month = _parse_single_row pd ct r' month.
Proof.
  intros Hlen H0 Hi. unfold _parse_single_row.
  destruct (Nat.ltb_spec (length r) 6) as [Hlenr|Hlenr],
    (Nat.ltb_spec (length r') 6) as [Hlen'|Hlen']; try lia.
  { by rewrite !orb_true_r. }
  rewrite !orb_false_r.
  repeat case_bool_decide; subst; simpl in Hlenr, Hlen'; try lia.
  f_equal. unfold _parse_single_row_try.
  assert (Hget : ∀ i, i < 6 → ∃ c c', r !! i = Some c ∧ r' !! i = Some c').
  { intros i Hlt. destruct (lookup_lt_is_Some_2 r i) as [c Hc]; [lia|].
    destruct (lookup_lt_is_Some_2 r' i) as [c' Hc']; [lia|]. eauto. }
  destruct (Hget 0) as (c0 & c0' & Hc0 & Hc0'); [lia|].
  destruct (Hget 1) as (c1 & c1' & Hc1 & Hc1'); [lia|].
  destruct (Hget 2) as (c2 & c2' & Hc2 & Hc2'); [lia|].
  destruct (Hget 3) as (c3 & c3' & Hc3 & Hc3'); [lia|].
  destruct (Hget 4) as (c4 & c4' & Hc4 & Hc4'); [lia|].
  destruct (Hget 5) as (c5 & c5' & Hc5 & Hc5'); [lia|].
  rewrite Hc0, Hc0' in H0. injection H0 as H0.
  pose proof (Hi 1) as E1. rewrite Hc1, Hc1' in E1. injection (E1 ltac:(lia) ltac:(lia)) as E1'.
  pose proof (Hi 2) as E2. rewrite Hc2, Hc2' in E2. injection (E2 ltac:(lia) ltac:(lia)) as E2'.
  pose proof (Hi 3) as E3. rewrite Hc3, Hc3' in E3. injection (E3 ltac:(lia) ltac:(lia)) as E3'.
  pose proof (Hi 4) as E4. rewrite Hc4, Hc4' in E4. injection (E4 ltac:(lia) ltac:(lia)) as E4'.
  pose proof (Hi 5) as E5. rewrite Hc5, Hc5' in E5. injection (E5 ltac:(lia) ltac:(lia)) as E5'.
  rewrite (getitem_lookup _ _ _ Hc0), (getitem_lookup _ _ _ Hc0'),
    (getitem_lookup _ _ _ Hc1), (getitem_lookup _ _ _ Hc1'),
    (getitem_lookup _ _ _ Hc2), (getitem_lookup _ _ _ Hc2'),
    (getitem_lookup _ _ _ Hc3), (getitem_lookup _ _ _ Hc3'),
    (getitem_lookup _ _ _ Hc4), (getitem_lookup _ _ _ Hc4'),
    (getitem_lookup _ _ _ Hc5), (getitem_lookup _ _ _ Hc5').
  cbn [mbind Res_bind]. rewrite !date_str_text, H0, E1', E2', E3', E4', E5'.
  assert ((if 6 <? length r
           then getitem r 6 ≫= λ c6, ct (str_or_empty c6)
           else Return [])
          = (if 6 <? length r'
             then getitem r' 6 ≫= λ c6, ct (str_or_empty c6)
             else Return [])) as ->; [|done].
  destruct (Nat.ltb_spec 6 (length r)), (Nat.ltb_spec 6 (length r')); try lia; [|done].
  assert (∃ c6 c6', r !! 6 = Some c6 ∧ r' !! 6 = Some c6') as (c6 & c6' & Hc6 & Hc6').
  { destruct (lookup_lt_is_Some_2 r 6) as [c Hc]; [lia|].
    destruct (lookup_lt_is_Some_2 r' 6) as [c' Hc']; [lia|]. eauto. }
  pose proof (Hi 6) as E6. rewrite Hc6, Hc6' in E6. injection (E6 ltac:(lia) ltac:(lia)) as E6'.
  rewrite (getitem_lookup _ _ _ Hc6), (getitem_lookup _ _ _ Hc6').
  cbn [mbind Res_bind]. by rewrite E6'.
Qed.

Lemma row_text_texts (r : row) :
  row_text r = join (lit " ") (map (λ c, upper (str_or_empty c)) r).
Proof.
  unfold row_text. f_equal. apply map_ext. by intros [[|a s]|].
Qed.

Lemma lookup_map {A B} (f : A → B) (l : list A) i : map f l !! i = f <$> l !! i.
Proof. apply (list_lookup_fmap f l i). Qed.

Lemma is_header_ext (r r' : row) :
  map str_or_empty r = map str_or_empty r' → is_header r = is_header r'.
Proof.
  intros Heq. unfold is_header.
  assert (row_text r = row_text r') as ->.
  { rewrite !row_text_texts.
    by rewrite <- !(map_map str_or_empty upper), Heq. }
  pose proof (f_equal length Heq) as Hlen. rewrite !length_map in Hlen.
  rewrite Hlen. do 2 f_equal.
  destruct r, r'; simpl in Hlen; try done; lia.
Qed.

Lemma find_header_from_map (f : row → row) t :
  (∀ r, is_header (f r) = is_header r) →
  ∀ i, _find_header_row_from i (map f t) = _find_header_row_from i t.
Proof.
  intros Hf. induction t as [|r t IH]; intros i; cbn [map _find_header_row_from]; [done|].
  rewrite Hf. by destruct (is_header r).
Qed.

Lemma omap_accepted_map pd ct month (f : row → row) rows :
  (∀ r, _parse_single_row pd ct (f r) month = _parse_single_row pd ct r month) →
  omap (accepted pd ct month) (map f rows) = omap (accepted pd ct month) rows.
Proof.
  intros Hf. induction rows as [|r rows IH]; [done|].
  assert (accepted pd ct month (f r) = accepted pd ct month r) as Hacc.
  { unfold accepted. by rewrite Hf. }
  cbn [map omap list_omap]. by rewrite Hacc, IH.
Qed.

(** A change of the rows that neither the header test nor the single-row
    parser can see leaves the result of the table parser alone. *)
Lemma parse_table_rows_map pd ct (f : row → row) t month :
  (∀ r, is_header (f r) = is_header r) →
  (∀ r, _parse_single_row pd ct (f r) month = _parse_single_row pd ct r month) →
  parse_table_rows pd ct (map f t) month = parse_table_rows pd ct t month.
Proof.
  intros Hh Hp. rewrite !parse_table_rows_data. f_equal.
  unfold data_rows, _find_header_row. rewrite length_map, find_header_from_map by done.
  destruct t as [|r0 t0]; [done|]. set (t := r0 :: t0).
  rewrite !bool_decide_eq_false_2 by done.
  destruct (_ || _); [done|].
  destruct (_find_header_row_from 0 t) as [j|]; [|done].
  rewrite <- (fmap_drop f). by apply omap_accepted_map.
Qed.

Lemma find_header_Some_inv t i :
  _find_header_row t = Some i → first_header t i ∧ i < length t.
Proof.
  unfold _find_header_row. intros (k & -> & Hk)%find_header_from_Some.
  split; [done|]. destruct Hk as [(r & Hr & _) _]. by apply lookup_lt_Some in Hr.
Qed.

Lemma data_rows_Some t j : _find_header_row t = Some j → data_rows t = drop (S j) t.
Proof.
  intros Hj. pose proof (find_header_Some_inv t j Hj) as [_ Hlt].
  unfold data_rows. rewrite Hj.
  destruct (bool_decide (t = []) || (length t <? 2)) eqn:G; [|done].
  apply orb_true_iff in G as [->%bool_decide_eq_true|Hlen%Nat.ltb_lt]; [done|].
  symmetry. apply drop_ge. lia.
Qed.

Lemma data_rows_None t : _find_header_row t = None → data_rows t = [].
Proof. intros Hj. unfold data_rows. rewrite Hj. by destruct (_ || _). Qed.

Lemma find_header_from_shift t : ∀ i k,
  _find_header_row_from (i + k) t = (λ j, j + k) <$> _find_header_row_from i t.
Proof.
  induction t as [|r t IH]; intros i k; cbn [_find_header_row_from]; [done|].
  destruct (is_header r); [done|]. apply (IH (S i) k).
Qed.

Lemma find_header_from_app pre t : ∀ i,
  (∀ r, r ∈ pre → ¬ qualifies r) →
  _find_header_row_from i (pre ++ t) = _find_header_row_from (i + length pre) t.
Proof.
  induction pre as [|r pre IH]; intros i Hpre; cbn [app length _find_header_row_from].
  - by rewrite Nat.add_0_r.
  - destruct (is_header r) eqn:Hr.
    + exfalso. apply (Hpre r); [left|]. by apply is_header_qualifies.
    + rewrite IH; [f_equal; lia|]. intros r' Hr'. apply Hpre. by right.
Qed.

Lemma length_omap_le {A B} (f : A → option B) l : length (omap f l) ≤ length l.
Proof.
  induction l as [|a l IH]; [done|]. cbn [omap list_omap].
  destruct (f a); simpl; lia.
Qed.

(** X1: a row of at most six cells never yields a record: without a seventh
    cell isha is empty and the acceptance gate turns the row down. *)
Theorem X1_six_cell_rows_rejected pd ct (r : row) (month : str) :
  length r ≤ 6 → _parse_single_row pd ct r month = Return None.
Proof.
  intros Hlen. destruct (parse_single_row_total pd ct r month) as [[d|] Hr]; [|done].
  apply parse_single_row_inv in Hr as (_ & (c1 & c2 & c3 & c4 & c5 & c6 & _ & _ & _ & _ & _ & H6 & _) & _).
  apply lookup_lt_Some in H6. lia.
Qed.

(** X1 on a six-cell row with every time present. *)
Lemma X1_six_cell_rows_rejected_witness :
  length six_cells ≤ 6
  ∧ _parse_single_row stub_parse_date stub_clean_time six_cells (lit "03") = Return None.
Proof.
  assert (Hlen : length six_cells ≤ 6) by (vm_compute; lia).
  split; [exact Hlen|].
  exact (X1_six_cell_rows_rejected stub_parse_date stub_clean_time six_cells (lit "03") Hlen).
Defined.

(** X2: the single-row parser looks at the first seven cells only: cutting
    a row after its seventh cell changes nothing. *)
Theorem X2_columns_beyond_seven_ignored pd ct (r : row) (month : str) :
  _parse_single_row pd ct (take 7 r) month = _parse_single_row pd ct r month.
Proof.
  apply parse_single_row_ext.
  - rewrite length_take. lia.
  - by rewrite lookup_take_lt by lia.
  - intros i _ Hi. by rewrite lookup_take_lt by lia.
Qed.

(** X3: a cell that is [None] and a cell that is the empty string are read
    alike, by the header search and by the single-row parser: replacing
    every [None] of a table by the empty string changes neither the header
    row found nor the records returned. *)
Theorem X3_none_cells_read_as_empty pd ct (t : table) (month : str) :
  _find_header_row (map (map blank_none) t) = _find_header_row t
  ∧ parse_table_rows pd ct (map (map blank_none) t) month
    = parse_table_rows pd ct t month.
Proof.
  assert (Htext : ∀ r : row, map str_or_empty (map blank_none r) = map str_or_empty r).
  { intros r. rewrite map_map. apply map_ext. by intros [[|a s]|]. }
  assert (Hh : ∀ r : row, is_header (map blank_none r) = is_header r).
  { intros r. by apply is_header_ext. }
  split; [by apply find_header_from_map|].
  apply parse_table_rows_map; [done|]. intros r.
  assert (Hcell : ∀ (l : list cell) i,
            str_or_empty <$> map blank_none l !! i = str_or_empty <$> l !! i).
  { intros l i. rewrite lookup_map. by destruct (l !! i) as [[[|a s]|]|]. }
  assert (Hdate : ∀ l : list cell,
            (λ c, strip (str_or_empty c)) <$> map blank_none l !! 0
            = (λ c, strip (str_or_empty c)) <$> l !! 0).
  { intros l. rewrite lookup_map. by destruct (l !! 0) as [[[|a s]|]|]. }
  apply parse_single_row_ext.
  - by rewrite length_map.
  - apply Hdate.
  - intros i _ _. apply Hcell.
Qed.

Lemma lstrip_all_space w : Forall (λ a, isspace a = true) w → lstrip w = [].
Proof. induction 1 as [|a w Ha _ IH]; simpl; [done | by rewrite Ha]. Qed.

Lemma lstrip_nil_all_space s : lstrip s = [] → Forall (λ a, isspace a = true) s.
Proof.
  induction s as [|a s IH]; simpl; [by constructor|].
  destruct (isspace a) eqn:Ha; [|done]. intros Hs. constructor; auto.
Qed.

Lemma lstrip_app_l w s : Forall (λ a, isspace a = true) w → lstrip (w ++ s) = lstrip s.
Proof. induction 1 as [|a w Ha _ IH]; simpl; [done | by rewrite Ha]. Qed.

Lemma lstrip_app_r s w : lstrip s ≠ [] → lstrip (s ++ w) = lstrip s ++ w.
Proof.
  induction s as [|a s IH]; simpl; [done|].
  destruct (isspace a); [apply IH | done].
Qed.

Lemma rstrip_app_r s w : Forall (λ a, isspace a = true) w → rstrip (s ++ w) = rstrip s.
Proof.
  intros Hw. unfold rstrip. rewrite reverse_app, lstrip_app_l; [done|].
  by apply Forall_reverse.
Qed.

(** White space around a string does not survive [strip]. *)
Lemma strip_padding w s w' :
  Forall (λ a, isspace a = true) w → Forall (λ a, isspace a = true) w' →
  strip (w ++ s ++ w') = strip s.
Proof.
  intros Hw Hw'. unfold strip. rewrite lstrip_app_l by done.
  destruct (lstrip s) as [|a t] eqn:Hs.
  - rewrite lstrip_all_space; [done|].
    apply Forall_app. split; [by apply lstrip_nil_all_space | done].
  - rewrite lstrip_app_r by (by rewrite Hs). rewrite Hs. by apply rstrip_app_r.
Qed.

(** X4: white space around the text of the date cell is ignored: the row
    is parsed as with the bare date. *)
Theorem X4_date_cell_padding_ignored pd ct (w s w' : str) (rest : list cell)
    (month : str) :
  Forall (λ a, isspace a = true) w → Forall (λ a, isspace a = true) w' →
  _parse_single_row pd ct (Some (w ++ s ++ w') :: rest) month
  = _parse_single_row pd ct (Some s :: rest) month.
Proof.
  intros Hw Hw'. apply parse_single_row_ext.
  - done.
  - assert (Hsome : ∀ x : str, str_or_empty (Some x) = x) by (by intros [|? ?]).
    cbn [lookup list_lookup fmap option_fmap option_map]. f_equal.
    rewrite !Hsome. by apply strip_padding.
  - intros [|i] Hi _; [lia|]. done.
Qed.

(** X4 on the row of day 1 with its date written with blanks around it. *)
Lemma X4_date_cell_padding_ignored_witness :
  Forall (λ a, isspace a = true) (lit "  ")
  ∧ Forall (λ a, isspace a = true) (lit " ")
  ∧ _parse_single_row stub_parse_date stub_clean_time day1_padded_cells (lit "03")
    = _parse_single_row stub_parse_date stub_clean_time day1_cells (lit "03")
  ∧ _parse_single_row stub_parse_date stub_clean_time day1_padded_cells (lit "03")
    = Return (Some accepted_day1).
Proof.
  assert (H2 : Forall (λ a, isspace a = true) (lit "  ")) by (by repeat constructor).
  assert (H1 : Forall (λ a, isspace a = true) (lit " ")) by (by repeat constructor).
  pose proof (X4_date_cell_padding_ignored stub_parse_date stub_clean_time
                (lit "  ") (lit "1") (lit " ") (tail day1_cells) (lit "03") H2 H1) as Heq.
  split; [exact H2|]. split; [exact H1|]. split; [exact Heq|].
  vm_compute. reflexivity.
Defined.

(** A keyword free of the separator occurs in a joined text exactly when it
    occurs in one of the parts. *)
Lemma substring_split kw a x b :
  x ∉ kw → kw ≠ [] →
  substring kw (a ++ x :: b) ↔ substring kw a ∨ substring kw b.
Proof.
  intros Hx Hne. unfold substring. split.
  - intros (u & v & Heq).
    apply app_eq_inv in Heq as [(k & -> & Hk)|(k & -> & Hk)].
    + apply app_eq_inv in Hk as [(k2 & -> & Hk2)|(k2 & -> & ->)].
      * destruct k2 as [|y k2].
        -- left. exists u, []. by rewrite !app_nil_r.
        -- injection Hk2 as -> _. exfalso. apply Hx, elem_of_app. right. left.
      * left. by exists u, k2.
    + destruct k as [|y k].
      * simpl in Hk. destruct kw as [|z kw]; [done|].
        injection Hk as -> _. exfalso. apply Hx. left.
      * injection Hk as _ ->. right. eauto.
  - intros [(u & v & ->)|(u & v & ->)].
    + exists u, (v ++ x :: b). by rewrite <- !app_assoc.
    + exists (a ++ x :: u), v. by rewrite <- !app_assoc.
Qed.

Lemma substring_join kw parts :
  " "%char ∉ kw → kw ≠ [] →
  substring kw (join (lit " ") parts) ↔ ∃ p, p ∈ parts ∧ substring kw p.
Proof.
  intros Hsp Hne. induction parts as [|p [|q ps] IH].
  - split.
    + intros (u & v & Heq). symmetry in Heq.
      apply app_eq_nil in Heq as [_ [? _]%app_eq_nil]. done.
    + by intros (p & ?%elem_of_nil & _).
  - cbn [join]. split.
    + intros H. exists p. split; [left|done].
    + by intros (p' & ->%list_elem_of_singleton & H).
  - change (join (lit " ") (p :: q :: ps)) with (p ++ " "%char :: join (lit " ") (q :: ps)).
    rewrite substring_split, IH by done. split.
    + intros [H|(p' & Hin & H)]; [exists p; split; [left|done]|].
      exists p'. split; [by right|done].
    + intros (p' & [->|Hin]%elem_of_cons & H); [by left|]. right. eauto.
Qed.

Lemma substring_row_text kw (r : row) :
  " "%char ∉ kw → kw ≠ [] →
  substring kw (row_text r) ↔ keyword_in_cell kw r.
Proof.
  intros Hsp Hne. unfold row_text, keyword_in_cell. rewrite substring_join by done.
  assert (Hnil : ¬ substring kw []).
  { intros (u & v & Heq). symmetry in Heq.
    apply app_eq_nil in Heq as [_ [? _]%app_eq_nil]. done. }
  split.
  - intros (p & Hin & Hsub). apply list_elem_of_In, in_map_iff in Hin as (c & <- & Hc).
    destruct c as [[|a s]|]; cbn [cell_truthy truthy] in Hsub; try done.
    exists (a :: s). split; [by apply list_elem_of_In|done].
  - intros (s & Hin & Hsub). destruct s as [|a s]; [done|].
    exists (upper (a :: s)). split; [|done].
    apply list_elem_of_In, in_map_iff. exists (Some (a :: s)).
    split; [done | by apply list_elem_of_In].
Qed.

(** X5: the header test looks for its keywords cell by cell: a row is taken
    as header exactly when it has at least six cells, one of them holding
    MAGHRIB and one of them holding FAJR or DATE, in any case; a keyword
    spread over two cells does not count. *)
Theorem X5_header_keywords_cell_by_cell (r : row) :
  is_header r = true
  ↔ 6 ≤ length r
    ∧ keyword_in_cell (lit "MAGHRIB") r
    ∧ (keyword_in_cell (lit "FAJR") r ∨ keyword_in_cell (lit "DATE") r).
Proof.
  rewrite is_header_qualifies. unfold qualifies.
  assert (Hkw : ∀ kw, bool_decide ((" "%char ∉ lit kw) ∧ (lit kw ≠ [])) = true →
            (substring (lit kw) (row_text r) ↔ keyword_in_cell (lit kw) r)).
  { intros kw [? ?]%bool_decide_eq_true. by apply substring_row_text. }
  rewrite (Hkw "MAGHRIB"), (Hkw "FAJR"), (Hkw "DATE") by (vm_compute; reflexivity).
  done.
Qed.

Lemma upper_lower_char a : upper_char (lower_char a) = upper_char a.
Proof. ascii_cases a; reflexivity. Qed.

Lemma upper_upper_char a : upper_char (upper_char a) = upper_char a.
Proof. ascii_cases a; reflexivity. Qed.

Lemma is_header_recase (g : str → str) (r : row) :
  (∀ s, upper (g s) = upper s) → (∀ s, length (g s) = length s) →
  is_header (map (fmap g) r) = is_header r.
Proof.
  intros Hup Hlen. unfold is_header.
  assert (row_text (map (fmap g) r) = row_text r) as ->.
  { unfold row_text. rewrite map_map. f_equal. apply map_ext.
    intros [s|]; [|done]. cbn [fmap option_fmap option_map cell_truthy str_of].
    specialize (Hlen s). rewrite Hup.
    destruct s, (g _); simpl in *; done. }
  rewrite length_map. do 2 f_equal. by destruct r.
Qed.

(** X6: the header search is blind to letter case: lower-casing or
    upper-casing every cell of a table leaves the header row found
    unchanged. *)
Theorem X6_header_search_ignores_case (t : table) :
  _find_header_row (map (map (fmap lower)) t) = _find_header_row t
  ∧ _find_header_row (map (map (fmap upper)) t) = _find_header_row t.
Proof.
  split; apply find_header_from_map; intros r; apply is_header_recase.
  - intros s. unfold upper, lower. rewrite map_map. apply map_ext, upper_lower_char.
  - intros s. apply length_map.
  - intros s. unfold upper. rewrite map_map. apply map_ext, upper_upper_char.
  - intros s. apply length_map.
Qed.

(** X7: rows above the header that do not qualify as header do not count:
    putting such rows in front of a table leaves its records unchanged. *)
Theorem X7_rows_above_header_ignored pd ct (pre t : table) (month : str) :
  (∀ r, r ∈ pre → ¬ qualifies r) →
  parse_table_rows pd ct (pre ++ t) month = parse_table_rows pd ct t month.
Proof.
  intros Hpre. rewrite !parse_table_rows_data. do 2 f_equal.
  destruct (_find_header_row t) as [j|] eqn:Hj.
  - assert (_find_header_row (pre ++ t) = Some (j + length pre)) as Hj'.
    { unfold _find_header_row in *. rewrite find_header_from_app by done.
      rewrite (find_header_from_shift t 0 (length pre)), Hj. done. }
    rewrite (data_rows_Some _ _ Hj), (data_rows_Some _ _ Hj').
    rewrite drop_app_ge by lia. f_equal. lia.
  - assert (_find_header_row (pre ++ t) = None) as Hj'.
    { unfold _find_header_row in *. rewrite find_header_from_app by done.
      rewrite (find_header_from_shift t 0 (length pre)), Hj. done. }
    by rewrite (data_rows_None _ Hj), (data_rows_None _ Hj').
Qed.

(** X7 on [sample_table]: its title row can be left out. *)
Lemma X7_rows_above_header_ignored_witness :
  (∀ r, r ∈ [title_cells] → ¬ qualifies r)
  ∧ parse_table_rows stub_parse_date stub_clean_time sample_table (lit "03")
    = parse_table_rows stub_parse_date stub_clean_time (tail sample_table) (lit "03").
Proof.
  assert (Hpre : ∀ r, r ∈ [title_cells] → ¬ qualifies r).
  { intros r ->%list_elem_of_singleton [Hlen _]. vm_compute in Hlen. lia. }
  split; [exact Hpre|].
  exact (X7_rows_above_header_ignored stub_parse_date stub_clean_time
           [title_cells] (tail sample_table) (lit "03") Hpre).
Defined.

(** X8: the table parser returns at most one record per row below the
    header: with the header at index [i] of a table of [n] rows, at most
    [n - i - 1] records; never as many records as rows. *)
Theorem X8_records_bounded_by_data_rows pd ct (t : table) (month : str) :
  ∃ recs,
    parse_table_rows pd ct t month = Return recs
    ∧ length recs ≤ length t - 1
    ∧ match _find_header_row t with
      | Some i => length recs + S i ≤ length t
      | None => recs = []
      end.
Proof.
  eexists. split; [apply parse_table_rows_data|].
  destruct (_find_header_row t) as [i|] eqn:Hi.
  - pose proof (find_header_Some_inv t i Hi) as [_ Hlt].
    rewrite (data_rows_Some _ _ Hi).
    pose proof (length_omap_le (accepted pd ct month) (drop (S i) t)) as Hle.
    rewrite length_drop in Hle. lia.
  - rewrite (data_rows_None _ Hi). simpl. split; [lia|done].
Qed.

(** X9: rows added below a table that has a header are parsed as further
    data rows: their records follow those of the table, which stay as they
    were. *)
Theorem X9_rows_below_append_records pd ct (t more : table) (month : str) (i : nat) :
  first_header t i →
  ∃ recs,
    parse_table_rows pd ct t month = Return recs
    ∧ parse_table_rows pd ct (t ++ more) month
      = Return (recs ++ omap (accepted pd ct month) more).
Proof.
  intros Hfirst. eexists. split; [apply parse_table_rows_data|].
  rewrite parse_table_rows_data. f_equal.
  pose proof (find_header_from_first t 0 i Hfirst) as Hi.
  assert (i < length t) as Hlt by (by apply (find_header_Some_inv t i)).
  assert (first_header (t ++ more) i) as Hfirst'.
  { destruct Hfirst as [(r & Hr & Hq) Hmin]. split.
    - exists r. split; [|done]. rewrite <- Hr. apply lookup_app_l. lia.
    - intros j r' Hj Hr'. apply (Hmin j r' Hj). rewrite <- Hr'. symmetry.
      apply lookup_app_l. lia. }
  pose proof (find_header_from_first (t ++ more) 0 i Hfirst') as Hi'.
  rewrite (data_rows_Some t i Hi), (data_rows_Some (t ++ more) i Hi').
  rewrite drop_app_le by lia. apply omap_app.
Qed.

(** X9 on [sample_table] continued by two more rows. *)
Lemma X9_rows_below_append_records_witness :
  first_header sample_table 1
  ∧ parse_table_rows stub_parse_date stub_clean_time (sample_table ++ more_rows) (lit "03")
    = Return [accepted_day1; accepted_day4; accepted_day4].
Proof.
  assert (Hfirst : first_header sample_table 1).
  { split.
    - exists header_cells. split; [reflexivity|].
      apply is_header_qualifies. vm_compute. reflexivity.
    - intros j r Hj Hr. destruct j as [|j]; [|lia].
      injection Hr as <-. intros [Hlen _]. vm_compute in Hlen. lia. }
  split; [exact Hfirst|].
  destruct (X9_rows_below_append_records stub_parse_date stub_clean_time
              sample_table more_rows (lit "03") 1 Hfirst) as (recs & Hrecs & Hmore).
  assert (Hrun : parse_table_rows stub_parse_date stub_clean_time sample_table (lit "03")
                 = Return [accepted_day1; accepted_day4]) by (vm_compute; reflexivity).
  rewrite Hrun in Hrecs. injection Hrecs as <-.
  rewrite Hmore. vm_compute. reflexivity.
Defined.

(** * Further properties of the text path *)

Lemma den_month_abbrev_length w c c' : den true month_abbrev w c c' → length w = 3.
Proof.
  unfold month_abbrev. cbn. intros H.
  repeat match goal with
         | H : _ ∨ _ |- _ => destruct H as [H|H]
         | H : ∃ _, _ |- _ => destruct H as [? H]
         | H : _ ∧ _ |- _ => destruct H as [? H]
         end; subst; reflexivity.
Qed.

Lemma den_day_marker_length w c c' : den true day_marker w c c' → 5 ≤ length w.
Proof.
  unfold day_marker. cbn [den].
  intros [(d & w1 & c1 & -> & (c0 & Hd & ->) & x & ab & c2 & -> & (a & -> & _ & ->) & c3 & Hab & ->)
         |(ab & w1 & c1 & -> & (c0 & Hab & ->) & x & d & c2 & -> & (a & -> & _ & ->) & c3 & Hd & ->)].
  all: apply den_day_digits in Hd as [[_ Hd] _]; apply den_month_abbrev_length in Hab.
  all: rewrite !length_app; simpl; rewrite ?length_app; simpl; lia.
Qed.

Lemma token_shape_length t : token_shape t → 5 ≤ length t.
Proof.
  intros (h & m & sp & a & mm & -> & [_ Hh] & _ & Hm & _).
  rewrite length_app. simpl. rewrite !length_app. simpl. lia.
Qed.

Lemma den_pattern_head_length w c c' : den true pattern_head w c c' → 29 ≤ length w.
Proof.
  unfold pattern_head. cbn [den].
  intros (mk & w1 & c1 & -> & Hmk%den_day_marker_length
          & sp1 & w2 & ? & -> & (_ & Hsp1 & ->)%den_spaces1
          & t5 & w3 & ? & -> & (H5%token_shape_length & ->)%den_token_group
          & sp2 & w4 & ? & -> & (_ & Hsp2 & ->)%den_spaces1
          & t6 & w5 & ? & -> & (H6%token_shape_length & ->)%den_token_group
          & sp3 & w6 & ? & -> & (_ & Hsp3 & ->)%den_spaces1
          & t7 & w7 & ? & -> & (H7%token_shape_length & ->)%den_token_group
          & sp4 & t8 & ? & -> & (_ & Hsp4 & ->)%den_spaces1
          & (H8%token_shape_length & ->)%den_token_group).
  assert (Hpos : ∀ l : str, l ≠ [] → 1 ≤ length l) by (intros [|? ?] ?; simpl; [done|lia]).
  apply Hpos in Hsp1, Hsp2, Hsp3, Hsp4. rewrite !length_app. lia.
Qed.

(** A match takes at least [min_match_length] characters. *)
Lemma match_here_length s s' c :
  match_here true pattern 10 s = Some (s', c) → length s' + min_match_length ≤ length s.
Proof.
  rewrite match_here_split. intros H.
  apply rmatch_sound in H as (w & s1 & c8 & -> & Hhead%den_pattern_head_length & H).
  apply rmatch_sound in H as (w9 & s2 & c9 & -> & _ & H).
  apply rmatch_sound in H as (w10 & s3 & c10 & -> & _ & [= <- <-]).
  unfold min_match_length. rewrite !length_app. lia.
Qed.

Lemma sorted_spans_bound (ms : list rematch) (n : nat) : ∀ lo,
  lo ≤ n →
  StronglySorted (λ m1 m2, m_end m1 ≤ m_start m2) ms →
  Forall (λ m, lo ≤ m_start m ∧ m_start m + min_match_length ≤ m_end m ∧ m_end m ≤ n) ms →
  length ms * min_match_length + lo ≤ n.
Proof.
  induction ms as [|m ms IH]; intros lo Hlo Hsorted Hall; [simpl; lia|].
  apply StronglySorted_inv in Hsorted as [Hsorted Hnext].
  apply Forall_cons in Hall as [(Hm1 & Hm2 & Hm3) Hall].
  specialize (IH (m_end m) Hm3 Hsorted). cbn [length]. 
  assert (length ms * min_match_length + m_end m ≤ n) as Hrec.
  { apply IH. rewrite Forall_forall in Hall, Hnext |- *.
    intros m2 Hm2'. destruct (Hall m2 Hm2') as (_ & ? & ?).
    specialize (Hnext m2 Hm2'). simpl in Hnext. lia. }
  lia.
Qed.

(** X10: a match of the fallback pattern spans at least 29 characters, so a
    text gives at most one record per 29 characters, and a text shorter than
    that gives none. *)
Theorem X10_records_bounded_by_text_length (text month : str) :
  ∃ recs,
    extract_from_text_pattern text month = Return recs
    ∧ Forall (λ m, m_start m + min_match_length ≤ m_end m)
        (finditer true pattern 10 text)
    ∧ length recs * min_match_length ≤ length text
    ∧ (length text < min_match_length → recs = []).
Proof.
  exists (map (record_of_groups month) (finditer true pattern 10 text)).
  split; [apply extract_spec|].
  assert (Hspan : Forall (λ m, 0 ≤ m_start m
                     ∧ m_start m + min_match_length ≤ m_end m
                     ∧ m_end m ≤ length text) (finditer true pattern 10 text)).
  { apply Forall_forall. intros m Hm.
    apply finditer_pattern in Hm as (_ & _ & Hend & Hmatch).
    apply match_here_length in Hmatch. rewrite !length_drop in Hmatch.
    unfold min_match_length in *. lia. }
  assert (Hcount : length (finditer true pattern 10 text) * min_match_length
                   ≤ length text).
  { pose proof (sorted_spans_bound (finditer true pattern 10 text) (length text) 0
                  ltac:(lia) (scan_sorted true pattern 10 text 0 0) Hspan). lia. }
  split; [|split].
  - eapply Forall_impl; [exact Hspan|]. intros m (_ & ? & _). done.
  - by rewrite length_map.
  - intros Hshort. destruct (finditer true pattern 10 text) as [|m ms]; [done|].
    simpl in Hcount. unfold min_match_length in *. lia.
Qed.

(** X11: the time fields of a record of the fallback extractor are the
    captured texts themselves: a captured token begins with a digit and ends
    with a letter, so stripping changes nothing, and a field has white space
    neither in front nor behind. *)
Theorem X11_text_fields_are_captured_tokens (text month : str) :
  ∃ recs,
    extract_from_text_pattern text month = Return recs
    ∧ Forall2 (λ m d,
                 fajr d = group m 5 ∧ sunrise d = group m 6
                 ∧ dhuhr d = group m 7 ∧ asr d = group m 8
                 ∧ maghrib d = group m 9 ∧ isha d = group m 10
                 ∧ Forall (λ f, strip f = f)
                     [fajr d; sunrise d; dhuhr d; asr d; maghrib d; isha d])
        (finditer true pattern 10 text) recs.
Proof.
  exists (map (record_of_groups month) (finditer true pattern 10 text)).
  split; [apply extract_spec|].
  apply Forall2_fmap_r, Forall_Forall2_diag, Forall_forall.
  intros m ((_ & (t5 & H5 & Ht5) & (t6 & H6 & Ht6) & (t7 & H7 & Ht7)
             & (t8 & H8 & Ht8) & Htail) & _)%finditer_pattern.
  unfold compose, record_of_groups. cbn [fajr sunrise dhuhr asr maghrib isha].
  rewrite (group_Some _ _ _ H5), (group_Some _ _ _ H6),
    (group_Some _ _ _ H7), (group_Some _ _ _ H8).
  rewrite (token_strip_id t5), (token_strip_id t6), (token_strip_id t7),
    (token_strip_id t8) by done.
  assert (Hopt : ∀ n, m_groups m !! n = Some None ∨ token_group (m_groups m) n →
            (if truthy (group m n) then strip (group m n) else []) = group m n).
  { intros n [Hn|(t & Hn & Ht)].
    - by rewrite (group_None _ _ Hn).
    - rewrite (group_Some _ _ _ Hn), (token_truthy _ Ht). by apply token_strip_id. }
  assert (H9 : m_groups m !! 9 = Some None ∨ token_group (m_groups m) 9)
    by (destruct Htail as [[? ?]|[? ?]]; auto).
  assert (H10 : m_groups m !! 10 = Some None ∨ token_group (m_groups m) 10)
    by (destruct Htail as [[? ?]|[? [?|?]]]; auto).
  rewrite (Hopt 9 H9), (Hopt 10 H10).
  do 6 (split; [done|]).
  assert (Hfix : ∀ n, m_groups m !! n = Some None ∨ token_group (m_groups m) n →
            strip (group m n) = group m n).
  { intros n [Hn|(t & Hn & Ht)].
    - by rewrite (group_None _ _ Hn).
    - rewrite (group_Some _ _ _ Hn). by apply token_strip_id. }
  repeat constructor; try (by apply token_strip_id); by apply Hfix.
Qed.

(** * Properties of the document reader *)

Lemma text_loop_spec pages : ∀ acc, text_loop pages acc = acc ++ whole_text pages.
Proof.
  induction pages as [|page pages IH]; intros acc; cbn [text_loop].
  - unfold whole_text. simpl. by rewrite app_nil_r.
  - rewrite IH. unfold whole_text. cbn [map concat]. by rewrite <- !app_assoc.
Qed.

Lemma tables_loop_spec pages : ∀ acc, tables_loop pages acc = acc ++ whole_tables pages.
Proof.
  induction pages as [|page pages IH]; intros acc; cbn [tables_loop].
  - unfold whole_tables. simpl. by rewrite app_nil_r.
  - unfold whole_tables. cbn [map concat]. fold (whole_tables pages).
    destruct (page_tables page) as [[|tb tbs]|]; rewrite IH; cbn [default];
      by rewrite <- ?app_assoc.
Qed.

Lemma whole_text_app pages1 pages2 :
  whole_text (pages1 ++ pages2) = whole_text pages1 ++ whole_text pages2.
Proof. unfold whole_text. by rewrite map_app, concat_app. Qed.

Lemma whole_text_length pages :
  length (whole_text pages)
  = sum_list (map (λ page, length (text_or_empty page)) pages) + length pages.
Proof.
  induction pages as [|page pages IH]; [done|].
  unfold whole_text in *. cbn [map concat sum_list sum_list_with length].
  rewrite !length_app, IH. simpl. lia.
Qed.

(** X12: [extract_text_and_metadata] returns the texts of the pages in page
    order, each followed by one line feed (a page without text counting as
    empty), so the text is as long as the page texts together plus the
    number of pages; both detectors read exactly this text.  An exception of
    the opener, of the zone detector or of the month detector comes out
    unchanged, the zone detector being asked first. *)
Theorem X12_document_text_and_metadata {Zone Month : Type}
    (open_pdf : str → Res (list Page)) (zone_of : str → Res Zone)
    (month_of : str → Res Month) (pdf_path : str) :
  match open_pdf pdf_path with
  | Raise e => extract_text_and_metadata open_pdf zone_of month_of pdf_path = Raise e
  | Return pages =>
      length (whole_text pages)
      = sum_list (map (λ page, length (text_or_empty page)) pages) + length pages
      ∧ match zone_of (whole_text pages), month_of (whole_text pages) with
        | Return zone, Return month =>
            extract_text_and_metadata open_pdf zone_of month_of pdf_path
            = Return (whole_text pages, zone, month)
        | Raise e, _ | Return _, Raise e =>
            extract_text_and_metadata open_pdf zone_of month_of pdf_path = Raise e
        end
  end.
Proof.
  unfold extract_text_and_metadata.
  destruct (open_pdf pdf_path) as [pages|e]; [|done].
  split; [apply whole_text_length|].
  cbn [mbind Res_bind]. rewrite text_loop_spec. cbn [app].
  destruct (zone_of (whole_text pages)) as [zone|e]; [|done].
  by destruct (month_of (whole_text pages)) as [month|e].
Qed.

(** X12 on the sample document: three pages, the second one without text. *)
Lemma X12_document_text_and_metadata_witness :
  extract_text_and_metadata sample_open stub_zone stub_month (lit "march.pdf")
  = Return (whole_text sample_pages, lit "Zone 1", lit "03")
  ∧ length (whole_text sample_pages) = 112
  ∧ extract_text_and_metadata sample_open stub_zone stub_month (lit "april.pdf")
    = Raise (OtherError "FileNotFoundError").
Proof.
  pose proof (X12_document_text_and_metadata sample_open stub_zone stub_month
                (lit "march.pdf")) as Hmarch.
  pose proof (X12_document_text_and_metadata sample_open stub_zone stub_month
                (lit "april.pdf")) as Hapril.
  assert (Hopen : sample_open (lit "march.pdf") = Return sample_pages)
    by (vm_compute; reflexivity).
  assert (Hzone : stub_zone (whole_text sample_pages) = Return (lit "Zone 1"))
    by (vm_compute; reflexivity).
  assert (Hmonth : stub_month (whole_text sample_pages) = Return (lit "03"))
    by (vm_compute; reflexivity).
  assert (Hclosed : sample_open (lit "april.pdf") = Raise (OtherError "FileNotFoundError"))
    by (vm_compute; reflexivity).
  rewrite Hopen, Hzone, Hmonth in Hmarch. rewrite Hclosed in Hapril.
  destruct Hmarch as [_ Hmarch].
  split; [exact Hmarch|]. split; [vm_compute; reflexivity | exact Hapril].
Defined.

(** X13: [extract_tables] returns the tables of all pages in page order; a
    page that answers [None] or no table adds nothing, and every table
    returned is a table of some page.  An exception of the opener comes out
    unchanged. *)
Theorem X13_document_tables (open_pdf : str → Res (list Page)) (pdf_path : str) :
  match open_pdf pdf_path with
  | Raise e => extract_tables open_pdf pdf_path = Raise e
  | Return pages =>
      extract_tables open_pdf pdf_path = Return (whole_tables pages)
      ∧ length (whole_tables pages)
        = sum_list (map (λ page, length (default [] (page_tables page))) pages)
      ∧ ∀ tb, tb ∈ whole_tables pages
          ↔ ∃ page tbs, page ∈ pages ∧ page_tables page = Some tbs ∧ tb ∈ tbs
  end.
Proof.
  unfold extract_tables. destruct (open_pdf pdf_path) as [pages|e]; [|done].
  cbn [mbind Res_bind]. rewrite tables_loop_spec. cbn [app].
  split; [done|]. split.
  - induction pages as [|page pages IH]; [done|].
    unfold whole_tables in *. cbn [map concat sum_list sum_list_with].
    by rewrite length_app, IH.
  - intros tb. unfold whole_tables. rewrite list_elem_of_In, in_concat. split.
    + intros (l & (page & <- & Hpage)%in_map_iff & Htb).
      apply list_elem_of_In in Hpage, Htb.
      destruct (page_tables page) as [tbs|] eqn:Htbs; [|by apply elem_of_nil in Htb].
      by exists page, tbs.
    + intros (page & tbs & Hpage & Htbs & Htb). exists tbs.
      split; [|by apply list_elem_of_In].
      apply in_map_iff. exists page. rewrite Htbs. split; [done|].
      by apply list_elem_of_In.
Qed.

(** X13 on the sample document: the two tables of the first page. *)
Lemma X13_document_tables_witness :
  extract_tables sample_open (lit "march.pdf")
  = Return [[title_cells]; [header_cells; day1_cells]]
  ∧ extract_tables sample_open (lit "april.pdf")
    = Raise (OtherError "FileNotFoundError").
Proof.
  pose proof (X13_document_tables sample_open (lit "march.pdf")) as Hmarch.
  pose proof (X13_document_tables sample_open (lit "april.pdf")) as Hapril.
  assert (Hopen : sample_open (lit "march.pdf") = Return sample_pages)
    by (vm_compute; reflexivity).
  assert (Hclosed : sample_open (lit "april.pdf") = Raise (OtherError "FileNotFoundError"))
    by (vm_compute; reflexivity).
  rewrite Hopen in Hmarch. rewrite Hclosed in Hapril.
  destruct Hmarch as [Hmarch _]. split; [exact Hmarch | exact Hapril].
Defined.

(** A match stays a match when text follows. *)
Lemma match_here_extend s rest :
  is_Some (match_here true pattern 10 s) → is_Some (match_here true pattern 10 (s ++ rest)).
Proof.
  intros [[s' c] (w & -> & Hden)%match_here_sound]. unfold match_here.
  rewrite <- app_assoc. eapply rmatch_complete; [done | by eexists].
Qed.

(** X14: joining the pages with line feeds keeps the places where the
    pattern matches, not the matches themselves.  Where the pattern matches
    in the text of one page it also matches at the same place of the
    document text, and that place lies inside a match reported for the
    document text.  The reported match can be another one than the page's:
    [page_next] alone gives the record of day 2, while the document
    [page_cut; page_next] gives one record only, of day 1, whose maghrib
    token runs over the page break into the first letter of [Apr], so the
    line of day 2 gives no record of its own. *)
Theorem X14_page_match_places_covered :
  (∀ (pre post : list Page) (page : Page) (m : rematch),
     m ∈ finditer true pattern 10 (text_or_empty page) →
     is_Some (match_here true pattern 10
                (drop (length (whole_text pre) + m_start m)
                   (whole_text (pre ++ page :: post))))
     ∧ ∃ m', m' ∈ finditer true pattern 10 (whole_text (pre ++ page :: post))
         ∧ m_start m' ≤ length (whole_text pre) + m_start m
         ∧ length (whole_text pre) + m_start m < m_end m')
  ∧ extract_from_text_pattern (text_or_empty page_next) (lit "04")
    = Return [MkRecord (lit "04-02") (lit "2:00P") (lit "2:10P") (lit "2:20P")
                (lit "2:30P") (lit "2:40P") (lit "2:45P")]
  ∧ extract_from_text_pattern (whole_text [page_cut; page_next]) (lit "04")
    = Return [MkRecord (lit "04-01") (lit "1:00A") (lit "1:00A") (lit "1:00A")
                (lit "1:00A") (lit "6:30" ++ newline :: lit "A") []].
Proof.
  split; [|split; vm_compute; reflexivity].
  intros pre post page m (_ & Hlt & Hend & Hmatch)%finditer_pattern.
  set (s := text_or_empty page) in *.
  set (i := length (whole_text pre) + m_start m).
  assert (Htext : whole_text (pre ++ page :: post)
                  = whole_text pre ++ s ++ newline :: whole_text post).
  { rewrite whole_text_app. f_equal. unfold whole_text. cbn [map concat].
    by rewrite <- app_assoc. }
  assert (Hhere : is_Some (match_here true pattern 10
                             (drop i (whole_text (pre ++ page :: post))))).
  { rewrite Htext. unfold i. rewrite drop_app_ge by lia.
    replace (length (whole_text pre) + m_start m - length (whole_text pre))
      with (m_start m) by lia.
    rewrite drop_app_le by lia. apply match_here_extend. by eexists. }
  split; [exact Hhere|].
  destruct (scan_complete true pattern 10 (whole_text (pre ++ page :: post)) 0 0 i)
    as (m' & Hin & Hpos); [lia| |done|].
  { rewrite Htext, !length_app. unfold i. simpl. lia. }
  exists m'. split; [done|].
  apply finditer_pattern in Hin as (_ & ? & _). lia.
Qed.

(** X14 on the sample document: the line of day 3, cut off after four times
    at the end of page one, still matches at its place in the document text,
    where the reported match takes in the two times that open page two. *)
Lemma X14_page_match_places_covered_witness :
  ∃ m m',
    m ∈ finditer true pattern 10 (text_or_empty page_one)
    ∧ m_start m = 62 ∧ m_end m = 96
    ∧ is_Some (match_here true pattern 10 (drop 62 (whole_text sample_pages)))
    ∧ m' ∈ finditer true pattern 10 (whole_text sample_pages)
    ∧ m_start m' ≤ 62 ∧ 62 < m_end m'.
Proof.
  assert (∃ m0 m1, finditer true pattern 10 (text_or_empty page_one) = [m0; m1]
                   ∧ m_start m1 = 62 ∧ m_end m1 = 96) as (m0 & m1 & Hlist & Hs & He).
  { eexists _, _. split; [vm_compute; reflexivity|]. split; reflexivity. }
  assert (Hin : m1 ∈ finditer true pattern 10 (text_or_empty page_one)).
  { rewrite Hlist. apply list_elem_of_further, list_elem_of_here. }
  destruct (proj1 X14_page_match_places_covered
              [] [page_blank; page_two] page_one m1 Hin)
    as (Hhere & m' & Hin' & Hlo & Hhi).
  rewrite Hs in Hhere, Hlo, Hhi.
  exists m1, m'. split; [exact Hin|]. split; [exact Hs|]. split; [exact He|].
  split; [exact Hhere|]. split; [exact Hin'|]. split; [exact Hlo | exact Hhi].
Defined.

(** * Letter case in the text path *)

Section Recase.
Variable g : ascii → ascii.
Hypothesis g_lower : ∀ a, lower_char (g a) = lower_char a.
Hypothesis g_digit : ∀ a, isdigit (g a) = isdigit a.
Hypothesis g_space : ∀ a, isspace (g a) = isspace a.
Hypothesis g_digit_fixed : ∀ a, isdigit a = true → g a = a.

Lemma cmatch_recase cl a : cmatch true cl (g a) = cmatch true cl a.
Proof.
  destruct cl as [| |c|cs]; cbn [cmatch]; rewrite ?g_lower; auto.
Qed.

Lemma rep_recase {A B} (F : A → B) cl s : ∀ lo hi (k : str → option A) (k' : str → option B),
  (∀ s', k' (map g s') = F <$> k s') →
  rep true cl lo hi (map g s) k' = F <$> rep true cl lo hi s k.
Proof.
  induction s as [|a s IH]; intros lo hi k k' Hk; cbn [map rep].
  - destruct (lo =? 0); [apply (Hk [])|done].
  - pose proof (Hk (a :: s)) as Hk0. cbn [map] in Hk0.
    rewrite cmatch_recase, (IH (pred lo) (pred <$> hi) k k' Hk), Hk0.
    destruct (lo =? 0), (_ && _),
      (rep true cl (pred lo) (pred <$> hi) s k); done.
Qed.

Lemma map_insert {X Y} (f : X → Y) (l : list X) i x :
  map f (<[i := x]> l) = <[i := f x]> (map f l).
Proof. apply (list_fmap_insert f l i x). Qed.

Lemma rmatch_recase {A B} (F : A → B) r : ∀ s (c : caps)
    (k : str → caps → option A) (k' : str → caps → option B),
  (∀ s' (c' : caps), k' (map g s') (map (option_map (map g)) c') = F <$> k s' c') →
  rmatch true r (map g s) (map (option_map (map g)) c) k' = F <$> rmatch true r s c k.
Proof.
  induction r as [cl|lo hi cl|r1 IH1 r2 IH2|r1 IH1 r2 IH2|r1 IH1|n r1 IH1];
    intros s c k k' Hk; cbn [rmatch].
  - destruct s as [|a s]; [done|]. cbn [map]. rewrite cmatch_recase.
    destruct (cmatch true cl a); [apply Hk|done].
  - apply rep_recase. intros s'. apply Hk.
  - apply IH1. intros s1 c1. by apply IH2.
  - rewrite (IH1 s c k k' Hk), (IH2 s c k k' Hk).
    by destruct (rmatch true r1 s c k).
  - rewrite (IH1 s c k k' Hk), (Hk s c). by destruct (rmatch true r1 s c k).
  - apply IH1. intros s' c'. rewrite <- Hk, map_insert, !length_map.
    cbn [option_map]. by rewrite <- firstn_map.
Qed.

Lemma match_here_recase s :
  match_here true pattern 10 (map g s)
  = (λ '(s', c), (map g s', map (option_map (map g)) c)) <$> match_here true pattern 10 s.
Proof.
  unfold match_here.
  change (replicate 11 None)
    with (map (option_map (map g)) (replicate 11 (@None str))) at 1.
  by apply rmatch_recase.
Qed.

Lemma scan_recase s : ∀ pos skip,
  scan true pattern 10 pos skip (map g s)
  = map (recase_match g) (scan true pattern 10 pos skip s).
Proof.
  induction s as [|a s IH]; intros pos skip; destruct skip as [|n]; cbn [scan map].
  - change [] with (map g []) at 1. rewrite match_here_recase.
    by destruct (match_here true pattern 10 []) as [[s' c]|].
  - done.
  - change (g a :: map g s) with (map g (a :: s)). rewrite match_here_recase.
    destruct (match_here true pattern 10 (a :: s)) as [[s' c]|]; cbn [fmap option_fmap option_map].
    + rewrite !length_map, IH. done.
    + apply IH.
  - apply IH.
Qed.

Lemma group_recase m n : group (recase_match g m) n = map g (group m n).
Proof.
  unfold group, recase_match. cbn [m_groups]. rewrite lookup_map.
  by destruct (m_groups m !! n) as [[t|]|].
Qed.

Lemma lstrip_recase s : lstrip (map g s) = map g (lstrip s).
Proof.
  induction s as [|a s IH]; [done|]. cbn [map lstrip]. rewrite g_space.
  by destruct (isspace a).
Qed.

Lemma map_reverse {X Y} (f : X → Y) (l : list X) : map f (reverse l) = reverse (map f l).
Proof. apply (fmap_reverse f l). Qed.

Lemma strip_recase s : strip (map g s) = map g (strip s).
Proof.
  unfold strip, rstrip.
  by rewrite lstrip_recase, <- map_reverse, lstrip_recase, <- map_reverse.
Qed.

Lemma record_recase month m :
  well_formed_groups (m_groups m) →
  record_of_groups month (recase_match g m)
  = recase_record (map g) (record_of_groups month m).
Proof.
  intros ((d & [Hd Hlen] & Hday) & _).
  unfold record_of_groups, recase_record.
  cbn [date fajr sunrise dhuhr asr maghrib isha].
  rewrite !group_recase, !strip_recase.
  assert (Hfix : map g d = d).
  { clear Hlen Hday. induction Hd as [|a d Ha _ IH]; [done|].
    cbn [map]. by rewrite IH, g_digit_fixed. }
  assert (Htruthy : ∀ t : str, truthy (map g t) = truthy t) by (by intros [|? ?]).
  assert (Hor : str_or (map g (group m 1)) (map g (group m 4))
                = str_or (group m 1) (group m 4)).
  { destruct Hday as [[H1 H4]|[H1 H4]].
    - rewrite (group_Some _ _ _ H1), (group_None _ _ H4), Hfix. done.
    - rewrite (group_None _ _ H1), (group_Some _ _ _ H4), Hfix. done. }
  rewrite Hor, !Htruthy. f_equal.
  - by destruct (truthy (group m 9)).
  - by destruct (truthy (group m 10)).
Qed.

Lemma extract_recase text month :
  extract_from_text_pattern (map g text) month
  = Return (map (recase_record (map g))
              (map (record_of_groups month) (finditer true pattern 10 text))).
Proof.
  rewrite extract_spec. f_equal. unfold finditer. rewrite scan_recase, !map_map.
  apply map_ext_in. intros m Hm. apply record_recase.
  apply list_elem_of_In in Hm. by apply (finditer_pattern text m) in Hm as [? _].
Qed.
End Recase.

(** X15: the fallback extractor is blind to letter case but keeps it:
    lower-casing a text gives the same number of records with the same
    dates, their time fields lower-cased. *)
Theorem X15_text_path_letter_case (text month : str) :
  ∃ recs,
    extract_from_text_pattern text month = Return recs
    ∧ extract_from_text_pattern (lower text) month
      = Return (map (recase_record lower) recs).
Proof.
  exists (map (record_of_groups month) (finditer true pattern 10 text)).
  split; [apply extract_spec|].
  apply (extract_recase lower_char); intros a; ascii_cases a; vm_compute; congruence.
Qed.
